(** * Authentication and authorization policy of the MERN server

    A shallow embedding of [server/src/utils/auth.js] (token helpers and the
    role hierarchy), of the part of [server/src/utils/logger.js] the
    middleware calls, and of [server/src/middleware/auth.js] (the four
    Express middlewares), followed by the properties the design document
    states about them.

    JavaScript values are embedded as an inductive type, exceptions as the
    [Throw] constructor of [outcome], and the effects of a middleware
    (answering on [res], calling [next], setting [req.user], writing to the
    console) as explicit state passing in the monad [M]. *)

From Stdlib Require Import ZArith String Ascii List Lia.
From stdpp Require Import base option list strings gmap.

Local Open Scope Z_scope.
Local Open Scope string_scope.

(** ** JavaScript values and exceptions *)

Module Js.

(** The values an identity field ([_id], [username], [email], [role]) or an
  ownership field of a resource takes: absent, [null], a string, or a
  Mongoose [ObjectId] (an object, printed by [toString()] and by
  [toJSON()] as its hexadecimal text). *)
Inductive jsval : Type :=
| JUndefined
| JNull
| JStr (s : string)
| JOid (hex : string).

(** A thrown value: an error object with its [name] and [message]. *)
Record exn : Type := Exn { exn_name : string; exn_message : string }.

(** What evaluating an expression gives: a value, or an exception. *)
Inductive outcome (A : Type) : Type :=
| Return (a : A)
| Throw (e : exn).
Arguments Return {A} a.
Arguments Throw {A} e.

(** [!v] is [negb (truthy v)]. *)
Definition truthy (v : jsval) : bool :=
match v with
| JUndefined | JNull => false
| JStr s => negb (String.eqb s EmptyString)
| JOid _ => true
end.

(** The method call [v.toString()]: a [TypeError] on [undefined] and
  [null], which have no properties. *)
Definition toString (v : jsval) : outcome string :=
match v with
| JUndefined => Throw (Exn "TypeError" "Cannot read properties of undefined (reading 'toString')")
| JNull => Throw (Exn "TypeError" "Cannot read properties of null (reading 'toString')")
| JStr s => Return s
| JOid hex => Return hex
end.

(** The key [obj[v]] reads: [ToPropertyKey v]. *)
Definition to_property_key (v : jsval) : string :=
match v with
| JUndefined => "undefined"
| JNull => "null"
| JStr s => s
| JOid hex => hex
end.

(** [JSON.parse(JSON.stringify(o)).k] for a property [k] of [o] holding [v]:
  an [undefined] property is left out and reads back as [undefined], an
  [ObjectId] is written by its [toJSON()] as a string. *)
Definition json_value (v : jsval) : jsval :=
match v with
| JOid hex => JStr hex
| _ => v
end.

(** *** Plain objects and [Object.prototype]

  An object literal inherits from [Object.prototype], so [obj[k]] reads
  an own property, or else a member of the prototype, or else gives
  [undefined]. *)
Inductive member (V : Type) : Type :=
| Own (v : V)
| Inherited (text : string)
| Missing.
Arguments Own {V} v.
Arguments Inherited {V} text.
Arguments Missing {V}.

(** The text of a built-in function, as [Function.prototype.toString]
  prints it. *)
Definition native_text (name : string) : string :=
"function " +:+ name +:+ "() { [native code] }".

(** The members of [Object.prototype], each with the string its
  [ToPrimitive] conversion gives: the built-in methods print as their
  source text, and [__proto__] of an object literal is
  [Object.prototype] itself, which prints as [[object Object]]. *)
Definition object_prototype (k : string) : option string :=
if String.eqb k "constructor" then Some (native_text "Object")
else if String.eqb k "__proto__" then Some "[object Object]"
else if existsb (String.eqb k)
          ["__defineGetter__"; "__defineSetter__"; "hasOwnProperty";
           "__lookupGetter__"; "__lookupSetter__"; "isPrototypeOf";
           "propertyIsEnumerable"; "toString"; "valueOf"; "toLocaleString"]
     then Some (native_text k)
else None.

(** [obj[k]] for an object literal with own properties [own]. *)
Definition get {V} (own : gmap string V) (k : string) : member V :=
match own !! k with
| Some v => Own v
| None =>
    match object_prototype k with
    | Some text => Inherited text
    | None => Missing
    end
end.

(** [a < b] on the results of reading numeric object literals, after
  ECMAScript's IsLessThan: both sides are converted by [ToPrimitive]; two
  strings are compared as strings, by code unit; otherwise both are
  converted by [ToNumber], where [undefined] and the text of an inherited
  member (never a numeric literal) give [NaN], and a comparison with
  [NaN] is [undefined], here [None]. *)
Definition js_lt (a b : member Z) : option bool :=
match a, b with
| Own x, Own y => Some (Z.ltb x y)
| Inherited s, Inherited t => Some (String.ltb s t)
| _, _ => None
end.

(** [a >= b] is [!(a < b)], and [false] when [a < b] is [undefined]. *)
Definition js_ge (a b : member Z) : bool :=
match js_lt a b with
| Some r => negb r
| None => false
end.

(** [a <= b] is [!(b < a)], and [false] when [b < a] is [undefined]. *)
Definition js_le (a b : member Z) : bool :=
match js_lt b a with
| Some r => negb r
| None => false
end.

(** Truthiness of a numeric property read: [0] and [undefined] are falsy,
  an inherited member is an object and truthy. *)
Definition truthy_num (a : member Z) : bool :=
match a with
| Own n => negb (Z.eqb n 0)
| Inherited _ => true
| Missing => false
end.

(** [s.split(sep)] for a separator of one character: the pieces between
  the separators, one empty piece for the empty string. *)
Fixpoint split (sep : ascii) (s : string) : list string :=
match s with
| EmptyString => [EmptyString]
| String c rest =>
    if Ascii.eqb c sep then EmptyString :: split sep rest
    else match split sep rest with
         | piece :: pieces => String c piece :: pieces
         | [] => [String c EmptyString]
         end
end.

(** Whether the character occurs in the string. *)
Fixpoint occurs (c : ascii) (s : string) : bool :=
match s with
| EmptyString => false
| String d rest => Ascii.eqb d c || occurs c rest
end.

End Js.
Import Js.

(** ** Configuration ([config/env.js]) *)

(** The values [config/env.js] exports that the modelled code reads, after
    the environment and the defaults are resolved. [JWT_EXPIRE] is the time
    span in seconds the token library resolves the configured text to
    (['7d'] by default). *)
Record Config : Type := {
  JWT_SECRET : string;
  JWT_EXPIRE : Z;
  LOG_LEVEL : string;
}.

Definition default_config : Config := {|
  JWT_SECRET := "your-super-secret-jwt-key-change-in-production";
  JWT_EXPIRE := 7 * 24 * 60 * 60;
  LOG_LEVEL := "info";
|}.

(** ** Users and tokens *)

(** A user document as the middleware reads it. *)
Record User : Type := {
  _id : jsval;
  username : jsval;
  email : jsval;
  role : jsval;
  isActive : bool;
}.

(** The object [generateToken] hands to [jwt.sign]. *)
Module Payload.
Record t : Type := make { id : jsval; username : jsval; email : jsval; role : jsval }.
End Payload.

(** The object [jwt.verify] returns: the payload as JSON carries it, with
    the issued-at and expiry claims, in seconds. *)
Module Decoded.
Record t : Type := make {
  id : jsval; username : jsval; email : jsval; role : jsval;
  iat : Z; exp : Z;
}.

Definition of_payload (p : Payload.t) (issued expires : Z) : t := {|
  id := json_value (Payload.id p);
  username := json_value (Payload.username p);
  email := json_value (Payload.email p);
  role := json_value (Payload.role p);
  iat := issued;
  exp := expires;
|}.
End Decoded.

(** The [jsonwebtoken] package, an external library: [jwt_sign payload
    secret expiresIn now] is [jwt.sign(payload, secret, { expiresIn })] when
    the clock reads [now] seconds, and [jwt_verify token secret now] is
    [jwt.verify(token, secret)], which returns the decoded payload or throws
    ([JsonWebTokenError], [TokenExpiredError], ...). *)
Class JsonWebToken : Type := {
  jwt_sign : Payload.t -> string -> Z -> Z -> string;
  jwt_verify : string -> string -> Z -> outcome Decoded.t;
}.

(** The contract of the library the token helpers rely on: a token verifies
    under the secret it was signed with at every time before its expiry,
    and gives the signed payload back with its two time claims. *)
Definition jwt_lawful (L : JsonWebToken) : Prop :=
  forall payload secret expiresIn now t,
    t < now + expiresIn ->
    jwt_verify (jwt_sign payload secret expiresIn now) secret t
    = Return (Decoded.of_payload payload now (now + expiresIn)).

(** ** Token helpers and role hierarchy ([utils/auth.js]) *)

Section Utils.
Context {jwt : JsonWebToken} (cfg : Config).

(** [generateToken(user)], called when the clock reads [now]. *)
Definition generateToken (now : Z) (user : User) : string :=
  let payload := {|
    Payload.id := _id user;
    Payload.username := username user;
    Payload.email := email user;
    Payload.role := role user;
  |} in
  jwt_sign payload (JWT_SECRET cfg) (JWT_EXPIRE cfg) now.

(** [verifyToken(token)], called when the clock reads [now]: whatever
    [jwt.verify] throws is caught and replaced by a new [Error]. *)
Definition verifyToken (now : Z) (token : string) : outcome Decoded.t :=
  match jwt_verify token (JWT_SECRET cfg) now with
  | Return decoded => Return decoded
  | Throw error => Throw (Exn "Error" "Invalid token")
  end.
End Utils.

(** [extractToken(authHeader)]; [None] as argument is an absent header
    ([undefined] or [null]), [None] as result is [null]. *)
Definition extractToken (authHeader : option string) : option string :=
  match authHeader with
  | None => None
  | Some header =>
      if String.eqb header EmptyString then None
      else
        let parts := split " " header in
        if negb (Nat.eqb (length parts) 2)
           || negb (bool_decide (parts !! 0%nat = Some "Bearer"))
        then None
        else parts !! 1%nat
  end.

Definition roleHierarchy : gmap string Z := {[ "user" := 1; "admin" := 2 ]}.

(** [hasRole(userRole, requiredRole)]. *)
Definition hasRole (userRole requiredRole : jsval) : bool :=
  js_ge (get roleHierarchy (to_property_key userRole))
        (get roleHierarchy (to_property_key requiredRole)).

(** ** The logger ([utils/logger.js]) *)

(** A line written to the console: the stream it goes to and the parts
    [formatMessage] prints (time stamp, level, message, metadata). *)
Record LogLine : Type := {
  log_stream : string;
  log_time : Z;
  log_level : string;
  log_message : string;
  log_meta : list (string * member jsval);
}.

Definition LOG_LEVELS : gmap string Z :=
  {[ "error" := 0; "warn" := 1; "info" := 2; "debug" := 3 ]}.

Section Logger.
Context (cfg : Config).

(** [LOG_LEVELS[LOG_LEVEL] || LOG_LEVELS.info] *)
Definition getCurrentLogLevel : member Z :=
  let configured := get LOG_LEVELS (LOG_LEVEL cfg) in
  if truthy_num configured then configured else get LOG_LEVELS "info".

Definition shouldLog (lvl : string) : bool :=
  js_le (get LOG_LEVELS lvl) getCurrentLogLevel.

Definition formatMessage (now : Z) (out lvl msg : string)
    (m : list (string * member jsval)) : LogLine :=
  {| log_stream := out; log_time := now; log_level := lvl; log_message := msg;
     log_meta := m |}.

(** [logger.error] and [logger.warn] on a console holding [console]. *)
Definition logger_error (now : Z) (msg : string) (m : list (string * member jsval))
    (console : list LogLine) : list LogLine :=
  if shouldLog "error" then console ++ [formatMessage now "error" "error" msg m]
  else console.

Definition logger_warn (now : Z) (msg : string) (m : list (string * member jsval))
    (console : list LogLine) : list LogLine :=
  if shouldLog "warn" then console ++ [formatMessage now "warn" "warn" msg m]
  else console.
End Logger.

(** ** Requests, responses and the effects of a middleware *)

(** The body every denial carries. *)
Record Body : Type := { success : bool; message : string }.

(** What [res.status(code).json(body)] sends. *)
Record Response : Type := { status : Z; body : Body }.

#[export] Instance Body_eq_dec : EqDecision Body.
Proof. solve_decision. Defined.

#[export] Instance Response_eq_dec : EqDecision Response.
Proof. solve_decision. Defined.

(** The parts of [req] the middleware reads: the [Authorization] header
    (absent: [None]), [req.user] and [req.resource] (each [None] when
    [null] or [undefined]); a resource is a plain object, given by its own
    properties. *)
Record Request : Type := {
  authorization : option string;
  user : option User;
  resource : option (gmap string jsval);
}.

(** Everything a middleware can read or change: the request, the responses
    sent on [res] so far, how often [next] was called, the console, and the
    clock in seconds. *)
Record State : Type := {
  req : Request;
  sent : list Response;
  next_calls : nat;
  console : list LogLine;
  clock : Z;
}.

(** A computation with these effects that returns or throws. *)
Definition M (A : Type) : Type := State -> outcome A * State.

#[export] Instance M_ret : MRet M := fun A a s => (Return a, s).

#[export] Instance M_bind : MBind M := fun A B f m s =>
  match m s with
  | (Return a, s') => f a s'
  | (Throw e, s') => (Throw e, s')
  end.

(** [try { body } catch (error) { handler }] *)
Definition try_catch {A} (body : M A) (handler : exn -> M A) : M A := fun s =>
  match body s with
  | (Throw error, s') => handler error s'
  | returned => returned
  end.

Definition read {A} (f : State -> A) : M A := fun s => (Return (f s), s).

Definition lift {A} (o : outcome A) : M A := fun s => (o, s).

(** [res.status(code).json({ success: false, message })] *)
Definition deny (code : Z) (msg : string) : M unit := fun s =>
  (Return tt,
   {| req := req s;
      sent := sent s ++ [{| status := code; body := {| success := false; message := msg |} |}];
      next_calls := next_calls s; console := console s; clock := clock s |}).

(** [next()]. Express runs the rest of the chain inside its own
    [try]/[catch], so the call returns; the model counts it. *)
Definition next : M unit := fun s =>
  (Return tt,
   {| req := req s; sent := sent s; next_calls := S (next_calls s);
      console := console s; clock := clock s |}).

(** [req.user = u] *)
Definition set_user (u : User) : M unit := fun s =>
  (Return tt,
   {| req := {| authorization := authorization (req s); user := Some u;
                resource := resource (req s) |};
      sent := sent s; next_calls := next_calls s; console := console s;
      clock := clock s |}).

Definition log (write : Z -> list LogLine -> list LogLine) : M unit := fun s =>
  (Return tt,
   {| req := req s; sent := sent s; next_calls := next_calls s;
      console := write (clock s) (console s); clock := clock s |}).

(** [if (token)] on what [extractToken] returned: the token when it is
    neither [null] nor the empty string. *)
Definition if_token (token : option string) : option string :=
  match token with
  | Some t => if String.eqb t EmptyString then None else Some t
  | None => None
  end.

(** [v === s] for a string literal [s]. *)
Definition strict_eq_string (v : jsval) (s : string) : bool :=
  match v with
  | JStr t => String.eqb t s
  | _ => false
  end.

(** Truthiness and [toString()] of what reading a property gave. *)
Definition truthy_member (m : member jsval) : bool :=
  match m with
  | Own v => truthy v
  | Inherited _ => true
  | Missing => false
  end.

Definition toString_member (m : member jsval) : outcome string :=
  match m with
  | Own v => toString v
  | Inherited text => Return text
  | Missing => toString JUndefined
  end.

(** ** The middleware ([middleware/auth.js]) *)

Section Middleware.
Context {jwt : JsonWebToken} (cfg : Config).

(** [await User.findById(id).select('-password')]: the user store, an
    external collaborator that finds a user, finds none, or fails with an
    error object, as Mongoose's rejections are. A rejection with [null] or
    [undefined], on which reading [error.message] in the handler of
    [authenticateToken] would itself throw, is not in the model. *)
Context (findById : jsval -> outcome (option User)).

Definition authenticateToken : M unit :=
  try_catch
    (r ← read req;
     match if_token (extractToken (authorization r)) with
     | None => deny 401 "Access token is required"
     | Some token =>
         now ← read clock;
         decoded ← lift (verifyToken cfg now token);
         found ← lift (findById (Decoded.id decoded));
         match found with
         | None => deny 401 "User not found"
         | Some u =>
             if negb (isActive u) then deny 401 "Account is deactivated"
             else set_user u;; next
         end
     end)
    (fun error =>
       log (fun now => logger_error cfg now "Authentication failed"
                         [("error", Own (JStr (exn_message error)))]);;
       deny 401 "Invalid or expired token").

Definition requireRole (requiredRole : jsval) : M unit :=
  r ← read req;
  match user r with
  | None => deny 401 "Authentication required"
  | Some u =>
      if negb (hasRole (role u) requiredRole) then
        log (fun now => logger_warn cfg now "Access denied - insufficient permissions"
                          [("userId", Own (_id u)); ("userRole", Own (role u));
                           ("requiredRole", Own requiredRole)]);;
        deny 403 "Access denied - insufficient permissions"
      else next
  end.

(** [requireOwnership(resourceField)]; [None] when the argument is left
    out and the default ['author'] applies. *)
Definition requireOwnership (resourceField : option string) : M unit :=
  let field := default "author" resourceField in
  r ← read req;
  match user r with
  | None => deny 401 "Authentication required"
  | Some u =>
      if strict_eq_string (role u) "admin" then next
      else
        let resourceUserId :=
          match resource r with
          | Some o => get o field
          | None => Missing
          end in
        not_owner ←
          (if negb (truthy_member resourceUserId) then mret true
           else
             theirs ← lift (toString_member resourceUserId);
             mine ← lift (toString (_id u));
             mret (negb (String.eqb theirs mine)));
        if (not_owner : bool) then
          log (fun now => logger_warn cfg now "Access denied - not resource owner"
                            [("userId", Own (_id u)); ("resourceUserId", resourceUserId);
                             ("resourceField", Own (JStr field))]);;
          deny 403 "Access denied - you can only access your own resources"
        else next
  end.

Definition optionalAuth : M unit :=
  try_catch
    (r ← read req;
     match if_token (extractToken (authorization r)) with
     | Some token =>
         now ← read clock;
         decoded ← lift (verifyToken cfg now token);
         found ← lift (findById (Decoded.id decoded));
         match found with
         | Some u => if isActive u then set_user u else mret tt
         | None => mret tt
         end
     | None => mret tt
     end;;
     next)
    (fun error => next).
End Middleware.

(** ** A reference token library

    A small implementation of the [JsonWebToken] interface, used to show
    that its contract can be met and to run the middleware on concrete
    requests. A token has three parts separated by dots, as a JSON web
    token has: a fixed header, the claims, and a tag computed from the
    secret and the claims, all three written with binary digits and a few
    letters. The tag stands in for the keyed hash of a real library. *)

Module RefJwt.

Definition digit (b : bool) : ascii := if b then "1"%char else "0"%char.

Definition undigit (c : ascii) : option bool :=
  if Ascii.eqb c "1" then Some true
  else if Ascii.eqb c "0" then Some false
  else None.

(** Eight binary digits for each character. *)
Fixpoint write_string (s : string) : string :=
  match s with
  | EmptyString => EmptyString
  | String (Ascii b0 b1 b2 b3 b4 b5 b6 b7) rest =>
      String (digit b0) (String (digit b1) (String (digit b2) (String (digit b3)
      (String (digit b4) (String (digit b5) (String (digit b6) (String (digit b7)
      (write_string rest))))))))
  end.

Fixpoint read_string (s : string) : option string :=
  match s with
  | EmptyString => Some EmptyString
  | String c0 (String c1 (String c2 (String c3
      (String c4 (String c5 (String c6 (String c7 rest))))))) =>
      b0 ← undigit c0; b1 ← undigit c1; b2 ← undigit c2; b3 ← undigit c3;
      b4 ← undigit c4; b5 ← undigit c5; b6 ← undigit c6; b7 ← undigit c7;
      tail ← read_string rest;
      Some (String (Ascii b0 b1 b2 b3 b4 b5 b6 b7) tail)
  | _ => None
  end.

(** The binary digits of a positive number below its leading one, lowest
    first. *)
Fixpoint write_positive (p : positive) : string :=
  match p with
  | xH => EmptyString
  | xO q => String "0" (write_positive q)
  | xI q => String "1" (write_positive q)
  end.

Fixpoint read_positive (s : string) : option positive :=
  match s with
  | EmptyString => Some xH
  | String c rest =>
      b ← undigit c;
      q ← read_positive rest;
      Some (if (b : bool) then xI q else xO q)
  end.

Definition write_Z (z : Z) : string :=
  match z with
  | Z0 => "z"
  | Zpos p => String "p" (write_positive p)
  | Zneg p => String "m" (write_positive p)
  end.

Definition read_Z (s : string) : option Z :=
  match s with
  | String c rest =>
      if Ascii.eqb c "z" then (if String.eqb rest EmptyString then Some Z0 else None)
      else if Ascii.eqb c "p" then Zpos <$> read_positive rest
      else if Ascii.eqb c "m" then Zneg <$> read_positive rest
      else None
  | EmptyString => None
  end.

(** A claim as JSON carries it: left out, [null], or a string. *)
Definition write_value (v : jsval) : string :=
  match json_value v with
  | JUndefined => "u"
  | JNull => "n"
  | JStr s | JOid s => String "s" (write_string s)
  end.

Definition read_value (s : string) : option jsval :=
  match s with
  | String c rest =>
      if Ascii.eqb c "u" then (if String.eqb rest EmptyString then Some JUndefined else None)
      else if Ascii.eqb c "n" then (if String.eqb rest EmptyString then Some JNull else None)
      else if Ascii.eqb c "s" then JStr <$> read_string rest
      else None
  | EmptyString => None
  end.

Definition write_claims (p : Payload.t) (issued expires : Z) : string :=
  write_value (Payload.id p) +:+ "_" +:+ write_value (Payload.username p) +:+ "_"
  +:+ write_value (Payload.email p) +:+ "_" +:+ write_value (Payload.role p) +:+ "_"
  +:+ write_Z issued +:+ "_" +:+ write_Z expires.

Definition read_claims (s : string) : option Decoded.t :=
  match split "_" s with
  | [i; u; e; r; a; x] =>
      i ← read_value i; u ← read_value u; e ← read_value e; r ← read_value r;
      a ← read_Z a; x ← read_Z x;
      Some (Decoded.make i u e r a x)
  | _ => None
  end.

Definition header : string := "jwt".

Definition tag (secret claims : string) : string :=
  write_string (secret +:+ claims).

Definition sign (p : Payload.t) (secret : string) (expiresIn now : Z) : string :=
  let claims := write_claims p now (now + expiresIn) in
  header +:+ "." +:+ claims +:+ "." +:+ tag secret claims.

Definition verify (token secret : string) (now : Z) : outcome Decoded.t :=
  match split "." token with
  | [h; claims; t] =>
      match (if String.eqb h header then read_claims claims else None) with
      | None => Throw (Exn "JsonWebTokenError" "invalid token")
      | Some decoded =>
          if negb (String.eqb t (tag secret claims))
          then Throw (Exn "JsonWebTokenError" "invalid signature")
          else if Z.leb (Decoded.exp decoded) now
          then Throw (Exn "TokenExpiredError" "jwt expired")
          else Return decoded
      end
  | _ => Throw (Exn "JsonWebTokenError" "jwt malformed")
  end.

Definition lib : JsonWebToken := {| jwt_sign := sign; jwt_verify := verify |}.

End RefJwt.

(** The decision a middleware took, read off the state before and after
    it ran: it passed the request on ([next] called once, nothing sent),
    answered with a denial (one response, [next] not called), or threw. *)
Inductive Decision : Type :=
| Allowed
| Denied (answer : Response)
| Raised (e : exn)
| Irregular.

Definition decision (before : State) (run : outcome unit * State) : Decision :=
  match run with
  | (Throw e, _) => Raised e
  | (Return _, after) =>
      let old := length (sent before) in
      if bool_decide (take old (sent after) = sent before) then
        match drop old (sent after) with
        | [] =>
            if Nat.eqb (next_calls after) (S (next_calls before)) then Allowed
            else Irregular
        | [answer] =>
            if Nat.eqb (next_calls after) (next_calls before) then Denied answer
            else Irregular
        | _ => Irregular
        end
      else Irregular
  end.

Definition denial (code : Z) (msg : string) : Response :=
  {| status := code; body := {| success := false; message := msg |} |}.

(** The denials of the error taxonomy. *)
Definition Unauthenticated : Decision := Denied (denial 401 "Authentication required").
Definition InsufficientRole : Decision :=
  Denied (denial 403 "Access denied - insufficient permissions").
Definition NotOwner : Decision :=
  Denied (denial 403 "Access denied - you can only access your own resources").

(** [req.resource && req.resource[field]], the owner id [requireOwnership]
    compares with the caller's. *)
Definition owner_id (r : Request) (field : string) : member jsval :=
  match resource r with
  | Some o => get o field
  | None => Missing
  end.

(** The request of a test: no header, no user, no resource. *)
Definition mockReq : Request :=
  {| authorization := None; user := None; resource := None |}.

Definition fresh (r : Request) (now : Z) : State :=
  {| req := r; sent := []; next_calls := 0; console := []; clock := now |}.

(** ** Sample data and derived notions *)

(** The rank of a role: the own property of [roleHierarchy] under its
    key. *)
Definition rank (r : jsval) : option Z := roleHierarchy !! to_property_key r.

(** The user of the unit tests. *)
Definition mockUser : User := {|
  _id := JStr "507f1f77bcf86cd799439011";
  username := JStr "testuser";
  email := JStr "test@example.com";
  role := JStr "user";
  isActive := true;
|}.

(** An expired token and a token signed with another secret: the reference
    library tells them apart, [verifyToken] does not. *)
Definition expiredToken : string :=
  generateToken (jwt := RefJwt.lib) default_config 1000000000 mockUser.

Definition forgedToken : string :=
  jwt_sign (JsonWebToken := RefJwt.lib)
    (Payload.make (JStr "507f1f77bcf86cd799439011") (JStr "testuser")
       (JStr "test@example.com") (JStr "admin"))
    "guessed-secret" (JWT_EXPIRE default_config) 1700000000.

(** A caller with the given id and role, and a request by a caller for a
    resource whose author is [owner]. *)
Definition caller (i r : string) : User :=
  {| _id := JStr i; username := JUndefined; email := JUndefined; role := JStr r;
     isActive := true |}.

Definition ownershipReq (u : option User) (owner : jsval) : Request :=
  {| authorization := None; user := u; resource := Some {[ "author" := owner ]} |}.

(** [authorizeOwnership(caller, resourceOwnerId)] of the design document:
    the decision of [requireOwnership()] on such a request. *)
Definition authorizeOwnership (u : option User) (owner : jsval) : Decision :=
  let s := fresh (ownershipReq u owner) 0 in
  decision s (requireOwnership default_config None s).

(** A state in the middle of a request: one response sent, [next] called
    twice, a line on the console. *)
Definition busy (r : Request) : State :=
  {| req := r;
     sent := [denial 401 "Authentication required"];
     next_calls := 2;
     console := [formatMessage 1699999999 "warn" "warn" "earlier" []];
     clock := 1700000000 |}.

(** A user store that knows the user of the unit tests. *)
Definition mockFindById (i : jsval) : outcome (option User) :=
  match i with
  | JStr "507f1f77bcf86cd799439011" => Return (Some mockUser)
  | _ => Return None
  end.

Definition bearer (header : string) : Request :=
  {| authorization := Some header; user := None; resource := None |}.

(** ** Further code: the rest of the logger, the user's full name, routes *)

Section LoggerLevels.
Context (cfg : Config).

(** [logger.info] on a console holding [console]. *)
Definition logger_info (now : Z) (msg : string) (m : list (string * member jsval))
    (console : list LogLine) : list LogLine :=
  if shouldLog cfg "info" then console ++ [formatMessage now "log" "info" msg m]
  else console.

(** [logger.debug]; [node_env] is [NODE_ENV] of [config/env.js]. *)
Definition logger_debug (node_env : string) (now : Z) (msg : string)
    (m : list (string * member jsval)) (console : list LogLine) : list LogLine :=
  if shouldLog cfg "debug" && String.eqb node_env "development"
  then console ++ [formatMessage now "log" "debug" msg m]
  else console.
End LoggerLevels.

(** The template literal [`${v}`]: [ToString v]. *)
Definition to_string (v : jsval) : string := to_property_key v.

(** The virtual [fullName] of the user schema ([models/User.js]), on a
    document with the given [firstName], [lastName] and [username]. *)
Definition fullName (firstName lastName username : jsval) : jsval :=
  if truthy firstName && truthy lastName
  then JStr (to_string firstName +:+ " " +:+ to_string lastName)
  else username.

(** The state after [next()] and after [req.user = u]. *)
Definition passed (s : State) : State := snd (next s).
Definition attached (u : User) (s : State) : State := snd (set_user u s).

(** The handlers of a route, as [router.get(path, h1, h2, ...)] lists
    them: Express runs the first, and runs the following one when a handler
    has called [next()]; what a handler throws ends the route. *)
Fixpoint route (handlers : list (M unit)) : M unit := fun s =>
  match handlers with
  | [] => (Return tt, s)
  | handler :: rest =>
      match handler s with
      | (Return _, s') =>
          if Nat.ltb (next_calls s) (next_calls s') then route rest s'
          else (Return tt, s')
      | (Throw e, s') => (Throw e, s')
      end
  end.

(** The messages of the denials [authenticateToken] sends. *)
Definition authentication_denials : list string :=
  ["Access token is required"; "Invalid or expired token"; "User not found";
   "Account is deactivated"].

(** The user of the unit tests after a promotion, a user store that holds
    the promoted record, a store that is down, and a request that presents
    the token issued to the user of the unit tests. *)
Definition promotedUser : User := {|
  _id := JStr "507f1f77bcf86cd799439011";
  username := JStr "testuser";
  email := JStr "test@example.com";
  role := JStr "admin";
  isActive := true;
|}.

Definition promotedFindById (i : jsval) : outcome (option User) :=
  match i with
  | JStr "507f1f77bcf86cd799439011" => Return (Some promotedUser)
  | _ => Return None
  end.

Definition failingFindById (i : jsval) : outcome (option User) :=
  Throw (Exn "MongoNetworkError" "connection lost").

Definition issuedToken : string :=
  generateToken (jwt := RefJwt.lib) default_config 1700000000 mockUser.

Definition presented : State :=
  fresh (bearer ("Bearer " +:+ issuedToken)) 1700000500.

(** A configuration that asks for errors only, and a role outside the
    hierarchy. *)
Definition errorsOnly : Config :=
  {| JWT_SECRET := JWT_SECRET default_config; JWT_EXPIRE := JWT_EXPIRE default_config;
     LOG_LEVEL := "error" |}.

(** A handler that answers the request, standing for a controller. *)
Definition controller : M unit := fun s =>
  (Return tt,
   {| req := req s;
      sent := sent s ++ [{| status := 200;
                            body := {| success := true;
                                       message := "Users retrieved successfully" |} |}];
      next_calls := next_calls s; console := console s; clock := clock s |}).

(** A user as Mongoose loads it, with an [ObjectId], and a caller without
    an id. *)
Definition storedUser : User := {|
  _id := JOid "507f1f77bcf86cd799439011";
  username := JStr "testuser";
  email := JStr "test@example.com";
  role := JStr "user";
  isActive := true;
|}.

Definition anonymousCaller : User :=
  {| _id := JUndefined; username := JUndefined; email := JUndefined;
     role := JStr "user"; isActive := true |}.

(** ** Further code: password-reset tokens ([utils/auth.js]) *)

#[export] Instance jsval_eq_dec : EqDecision jsval.
Proof. solve_decision. Defined.

(** What [jwt.verify] returns, for any payload: the object JSON carried,
    by its own properties other than the two time claims, and the two time
    claims. *)
Module Claims.
Record t : Type := make { fields : gmap string jsval; iat : Z; exp : Z }.
End Claims.

(** [JSON.parse(JSON.stringify(o))] for an object [o] of the values of
    [jsval]: properties holding [undefined] are left out. *)
Definition json_object (o : gmap string jsval) : gmap string jsval :=
  json_value <$> filter (fun kv => kv.2 <> JUndefined) o.

(** [payload.k] for a key that names no member of [Object.prototype]. *)
Definition claim (payload : Claims.t) (k : string) : jsval :=
  default JUndefined (Claims.fields payload !! k).

(** The [jsonwebtoken] package on payloads of any shape, with the same
    reading of the arguments as in [JsonWebToken]. *)
Class JwtObjects : Type := {
  sign_object : gmap string jsval -> string -> Z -> Z -> string;
  verify_object : string -> string -> Z -> outcome Claims.t;
}.

Definition objects_lawful (L : JwtObjects) : Prop :=
  forall payload secret expiresIn now t,
    t < now + expiresIn ->
    verify_object (sign_object payload secret expiresIn now) secret t
    = Return (Claims.make (json_object payload) now (now + expiresIn)).

(** The library as [generateToken] and [verifyToken] use it: the payload
    is the object with the four identity properties, and the callers read
    these four properties and the time claims of what [jwt.verify]
    returns. *)
Definition identity_library (L : JwtObjects) : JsonWebToken := {|
  jwt_sign p secret expiresIn now :=
    sign_object
      {[ "id" := Payload.id p; "username" := Payload.username p;
         "email" := Payload.email p; "role" := Payload.role p ]}
      secret expiresIn now;
  jwt_verify token secret now :=
    match verify_object token secret now with
    | Return payload =>
        Return {| Decoded.id := claim payload "id";
                  Decoded.username := claim payload "username";
                  Decoded.email := claim payload "email";
                  Decoded.role := claim payload "role";
                  Decoded.iat := Claims.iat payload;
                  Decoded.exp := Claims.exp payload |}
    | Throw e => Throw e
    end;
|}.

(** [m !== s] for what reading a property gave and a string literal. *)
Definition member_differs (m : member jsval) (s : string) : bool :=
  match m with
  | Own v => negb (strict_eq_string v s)
  | Inherited _ | Missing => true
  end.

Section ResetTokens.
Context {jwt : JwtObjects} (cfg : Config).

(** [generateResetToken(userId)], called when the clock reads [now]; the
    time span ['1h'] is 3600 seconds. *)
Definition generateResetToken (now : Z) (userId : jsval) : string :=
  sign_object {[ "userId" := userId; "type" := JStr "reset" ]}
    (JWT_SECRET cfg) (60 * 60) now.

(** [verifyResetToken(token)], called when the clock reads [now]. *)
Definition verifyResetToken (now : Z) (token : string) : outcome Claims.t :=
  let attempt :=
    match verify_object token (JWT_SECRET cfg) now with
    | Return payload =>
        if member_differs (get (Claims.fields payload) "type") "reset"
        then Throw (Exn "Error" "Invalid token type")
        else Return payload
    | Throw e => Throw e
    end in
  match attempt with
  | Return payload => Return payload
  | Throw error => Throw (Exn "Error" "Invalid or expired reset token")
  end.
End ResetTokens.

(** A reference library for payloads of any shape, built as [RefJwt]: the
    claims part lists the properties of the payload, each as a key and a
    value, before the two time claims. *)
Module RefObjects.

Definition write_entry (kv : string * jsval) : string :=
  RefJwt.write_string kv.1 +:+ ":" +:+ RefJwt.write_value kv.2.

Definition read_entry (s : string) : option (string * jsval) :=
  match split ":" s with
  | [k; v] => k ← RefJwt.read_string k; v ← RefJwt.read_value v; Some (k, v)
  | _ => None
  end.

Fixpoint write_entries (l : list (string * jsval)) : string :=
  match l with
  | [] => EmptyString
  | kv :: rest => write_entry kv +:+ "," +:+ write_entries rest
  end.

Fixpoint read_pieces (pieces : list string) : option (list (string * jsval)) :=
  match pieces with
  | [] => None
  | [last] => if String.eqb last EmptyString then Some [] else None
  | piece :: rest =>
      kv ← read_entry piece; l ← read_pieces rest; Some (kv :: l)
  end.

Definition write_claims (o : gmap string jsval) (issued expires : Z) : string :=
  write_entries (map_to_list (json_object o)) +:+ "_"
  +:+ RefJwt.write_Z issued +:+ "_" +:+ RefJwt.write_Z expires.

Definition read_claims (s : string) : option Claims.t :=
  match split "_" s with
  | [entries; a; x] =>
      l ← read_pieces (split "," entries);
      a ← RefJwt.read_Z a; x ← RefJwt.read_Z x;
      Some (Claims.make (list_to_map l) a x)
  | _ => None
  end.

Definition sign (o : gmap string jsval) (secret : string) (expiresIn now : Z) : string :=
  let claims := write_claims o now (now + expiresIn) in
  RefJwt.header +:+ "." +:+ claims +:+ "." +:+ RefJwt.tag secret claims.

Definition verify (token secret : string) (now : Z) : outcome Claims.t :=
  match split "." token with
  | [h; claims; t] =>
      match (if String.eqb h RefJwt.header then read_claims claims else None) with
      | None => Throw (Exn "JsonWebTokenError" "invalid token")
      | Some payload =>
          if negb (String.eqb t (RefJwt.tag secret claims))
          then Throw (Exn "JsonWebTokenError" "invalid signature")
          else if Z.leb (Claims.exp payload) now
          then Throw (Exn "TokenExpiredError" "jwt expired")
          else Return payload
      end
  | _ => Throw (Exn "JsonWebTokenError" "jwt malformed")
  end.

Definition lib : JwtObjects := {| sign_object := sign; verify_object := verify |}.

End RefObjects.

(** A reset token and a session token of the reference library for
    payloads of any shape. *)
Definition resetToken : string :=
  generateResetToken (jwt := RefObjects.lib) default_config 1700000000
    (JOid "507f1f77bcf86cd799439011").

Definition sessionToken : string :=
  generateToken (jwt := identity_library RefObjects.lib) default_config 1700000000
    mockUser.

(** ** Further code: the controller ([controllers/authController.js]) *)

(** A user document as the controller reads it: the fields the middleware
    reads, the two names and the time of the last login. *)
Record Account : Type := {
  doc : User;
  firstName : jsval;
  lastName : jsval;
  lastLogin : option Z;
}.

(** [data.user] of the answer to a login. *)
Record UserView : Type := {
  view_id : jsval;
  view_username : jsval;
  view_email : jsval;
  view_firstName : jsval;
  view_lastName : jsval;
  view_fullName : jsval;
  view_role : jsval;
  view_lastLogin : option Z;
}.

(** What [login] sends with [res.status(...).json(...)]. *)
Record LoginReply : Type := {
  reply_status : Z;
  reply_success : bool;
  reply_message : string;
  reply_token : string;
  reply_user : UserView;
}.

(** What the controller throws to [asyncHandler]: an [AppError] with its
    message and status code (the class is defined in
    [middleware/errorHandler.js]), or what a collaborator threw. *)
Inductive thrown : Type :=
| AppError (message : string) (statusCode : Z)
| Rejected (e : exn).

Section Login.
Context {jwt : JsonWebToken} (cfg : Config).

(** The user store and the password check, external collaborators:
    [User.findOne({ email }).select('+password')],
    [user.comparePassword(password)] and the [save()] of
    [updateLastLogin]. *)
Context (findOne : jsval -> outcome (option Account)).
Context (comparePassword : Account -> jsval -> outcome bool).
Context (save : Account -> outcome unit).

(** [user.updateLastLogin()] up to [save()]: [this.lastLogin = new Date()]. *)
Definition touch (now : Z) (user : Account) : Account :=
  {| doc := doc user; firstName := firstName user; lastName := lastName user;
     lastLogin := Some now |}.

(** The handler [login] on the body [{ email, password }] (the email is
    [email0] here), called when the clock reads [now], on a console holding
    [console]: what it throws or sends, and the console after it. *)
Definition login (now : Z) (email0 password : jsval) (console : list LogLine)
    : (thrown + LoginReply) * list LogLine :=
  match findOne email0 with
  | Throw e => (inl (Rejected e), console)
  | Return None => (inl (AppError "Invalid credentials" 401), console)
  | Return (Some user) =>
      match comparePassword user password with
      | Throw e => (inl (Rejected e), console)
      | Return isPasswordValid =>
          if negb isPasswordValid
          then (inl (AppError "Invalid credentials" 401), console)
          else if negb (isActive (doc user))
          then (inl (AppError "Account is deactivated" 401), console)
          else
            let token := generateToken cfg now (doc user) in
            let user := touch now user in
            match save user with
            | Throw e => (inl (Rejected e), console)
            | Return _ =>
                (inr {| reply_status := 200;
                        reply_success := true;
                        reply_message := "Login successful";
                        reply_token := token;
                        reply_user :=
                          {| view_id := _id (doc user);
                             view_username := username (doc user);
                             view_email := email (doc user);
                             view_firstName := firstName user;
                             view_lastName := lastName user;
                             view_fullName :=
                               fullName (firstName user) (lastName user)
                                 (username (doc user));
                             view_role := role (doc user);
                             view_lastLogin := lastLogin user |} |},
                 logger_info cfg now "User logged in successfully"
                   [("userId", Own (_id (doc user)));
                    ("username", Own (username (doc user)))]
                   console)
            end
      end
  end.
End Login.

(** The fields of a profile a user may change. *)
Definition allowedFields : list string := ["firstName"; "lastName"; "profileImage"].

(** The loop of [updateProfile] that builds [updates] from the keys of
    [req.body], a plain object given by its own properties. *)
Definition profileUpdates (body : gmap string jsval) : gmap string jsval :=
  foldr
    (fun (kv : string * jsval) (updates : gmap string jsval) =>
       if bool_decide (kv.1 ∈ allowedFields) then <[kv.1 := kv.2]> updates
       else updates)
    ∅ (map_to_list body).

(** A store with one active and one deactivated account, whose password
    check accepts the password "Secret1". *)
Definition activeAccount : Account :=
  {| doc := mockUser; firstName := JStr "Test"; lastName := JStr "User";
     lastLogin := None |}.

Definition closedAccount : Account :=
  {| doc := {| _id := JStr "507f1f77bcf86cd799439012"; username := JStr "former";
               email := JStr "former@example.com"; role := JStr "user";
               isActive := false |};
     firstName := JUndefined; lastName := JUndefined; lastLogin := None |}.

Definition mockFindOne (e : jsval) : outcome (option Account) :=
  match e with
  | JStr "test@example.com" => Return (Some activeAccount)
  | JStr "former@example.com" => Return (Some closedAccount)
  | _ => Return None
  end.

Definition mockComparePassword (user : Account) (password : jsval) : outcome bool :=
  Return (strict_eq_string password "Secret1").

Definition mockSave (user : Account) : outcome unit := Return tt.

(** * Properties *)

(** ** Splitting strings *)

Lemma split_nonempty sep s : split sep s <> [].
Proof.
  destruct s as [|c rest]; simpl; [discriminate|].
  destruct (Ascii.eqb c sep); [discriminate|].
  destruct (split sep rest); discriminate.
Qed.

Lemma split_without sep s : occurs sep s = false -> split sep s = [s].
Proof.
  induction s as [|c rest IH]; simpl; [reflexivity|].
  intros H. apply orb_false_iff in H as [Hc Hrest].
  rewrite Hc, (IH Hrest). reflexivity.
Qed.

Lemma split_append sep a b :
  occurs sep a = false -> split sep (a +:+ String sep b) = a :: split sep b.
Proof.
  induction a as [|c rest IH]; simpl.
  - intros _. rewrite Ascii.eqb_refl. reflexivity.
  - intros H. apply orb_false_iff in H as [Hc Hrest].
    rewrite Hc, (IH Hrest). reflexivity.
Qed.

Lemma split_single sep s piece :
  split sep s = [piece] -> s = piece /\ occurs sep s = false.
Proof.
  revert piece. induction s as [|c rest IH]; simpl; intros piece H.
  - inversion H. auto.
  - destruct (Ascii.eqb c sep) eqn:Hc.
    + inversion H as [[Ha Hb]]. destruct (split_nonempty _ _ Hb).
    + destruct (split sep rest) as [|p ps] eqn:Hs; [destruct (split_nonempty _ _ Hs)|].
      inversion H; subst. destruct (IH p eq_refl) as [-> Hocc].
      rewrite Hocc. auto.
Qed.

Lemma split_pair sep s a b :
  split sep s = [a; b] <->
  s = a +:+ String sep b /\ occurs sep a = false /\ occurs sep b = false.
Proof.
  split.
  - revert a. induction s as [|c rest IH]; simpl; intros a H; [discriminate|].
    destruct (Ascii.eqb c sep) eqn:Hc.
    + inversion H as [[Ha Hb]]. apply Ascii.eqb_eq in Hc as ->.
      apply split_single in Hb as [-> Hocc]. auto.
    + destruct (split sep rest) as [|p ps] eqn:Hs; [discriminate|].
      inversion H; subst. destruct (IH p eq_refl) as (-> & Hp & Hb).
      simpl. rewrite Hc, Hp. auto.
  - intros (-> & Ha & Hb). rewrite split_append, split_without by assumption.
    reflexivity.
Qed.

(** ** [extractToken] *)

(** [extractToken] returns a token exactly when the header is the text
    "Bearer", one space, and a remainder without a space. *)
Lemma extractToken_spec (authHeader : option string) (token : string) :
  extractToken authHeader = Some token <->
  authHeader = Some ("Bearer " +:+ token) /\ occurs " " token = false.
Proof.
  unfold extractToken. split.
  - destruct authHeader as [header|]; [|discriminate].
    destruct (String.eqb header EmptyString); [discriminate|].
    destruct (split " " header) as [|p0 [|p1 [|p2 rest]]] eqn:Hparts;
      simpl; try discriminate.
    case_bool_decide as Hscheme; simpl; [|discriminate].
    intros Htoken. injection Hscheme as ->. injection Htoken as ->.
    apply split_pair in Hparts as (-> & _ & Hocc). auto.
  - intros [-> Hocc].
    assert (split " " ("Bearer " +:+ token) = ["Bearer"; token]) as ->
      by (apply split_pair; auto).
    reflexivity.
Qed.

(** Claim C6, as the code has it: [extractToken] returns a token exactly
    when the header is the text "Bearer", one space, and a remainder
    without a space, and then the token is that remainder; for every other
    header, and for an absent one, the result is [null]. The function is
    total: it never throws. The remainder may be empty. *)
Theorem extractToken_bearer (authHeader : option string) :
  (forall token, extractToken authHeader = Some token <->
     authHeader = Some ("Bearer " +:+ token) /\ occurs " " token = false)
  /\ (extractToken authHeader = None
      \/ exists token, authHeader = Some ("Bearer " +:+ token)
                       /\ extractToken authHeader = Some token).
Proof.
  split; [apply extractToken_spec|].
  destruct (extractToken authHeader) as [token|] eqn:H; [right | left; reflexivity].
  exists token. apply extractToken_spec in H as [Hform _]. auto.
Qed.

(** Claim C6, as stated, fails for a header that ends after the space: the
    token part is missing, and the result is the empty string, not
    [null]. *)
Lemma extractToken_empty_remainder :
  extractToken (Some "Bearer ") = Some EmptyString
  /\ extractToken (Some "Bearer ") <> None.
Proof. split; [reflexivity | discriminate]. Qed.

(** The examples of the design document. *)
Example extractToken_examples :
  extractToken (Some "Bearer abc123") = Some "abc123"
  /\ extractToken (Some "Bearer") = None
  /\ extractToken (Some "abc123") = None
  /\ extractToken None = None
  /\ extractToken (Some "Basic abc123") = None
  /\ extractToken (Some "Bearer abc 123") = None
  /\ extractToken (Some "bearer abc123") = None
  /\ extractToken (Some "Bearer  abc123") = None.
Proof. repeat split; reflexivity. Qed.

(** The callers test the result with [if (token)], which takes the empty
    string for no token: a token is used exactly when the header has a
    non-empty remainder. *)
Lemma if_token_extractToken (authHeader : option string) (token : string) :
  if_token (extractToken authHeader) = Some token <->
  authHeader = Some ("Bearer " +:+ token) /\ occurs " " token = false
  /\ token <> EmptyString.
Proof.
  unfold if_token. split.
  - destruct (extractToken authHeader) as [t|] eqn:Hextract; [|discriminate].
    destruct (String.eqb t EmptyString) eqn:Hempty; [discriminate|].
    intros [= ->]. apply extractToken_spec in Hextract as [-> Hocc].
    apply String.eqb_neq in Hempty. auto.
  - intros (-> & Hocc & Hne).
    assert (extractToken (Some ("Bearer " +:+ token)) = Some token) as ->
      by (apply extractToken_spec; auto).
    apply String.eqb_neq in Hne. rewrite Hne. reflexivity.
Qed.

(** ** [hasRole] *)

Lemma roleHierarchy_own (k : string) :
  roleHierarchy !! k
  = if String.eqb k "user" then Some 1
    else if String.eqb k "admin" then Some 2 else None.
Proof.
  unfold roleHierarchy.
  destruct (String.eqb k "user") eqn:Huser.
  - apply String.eqb_eq in Huser as ->. reflexivity.
  - apply String.eqb_neq in Huser.
    rewrite lookup_insert_ne by congruence.
    destruct (String.eqb k "admin") eqn:Hadmin.
    + apply String.eqb_eq in Hadmin as ->. reflexivity.
    + apply String.eqb_neq in Hadmin. apply lookup_singleton_ne. congruence.
Qed.

Lemma rank_known (r : jsval) (n : Z) :
  rank r = Some n <->
  (to_property_key r = "user" /\ n = 1) \/ (to_property_key r = "admin" /\ n = 2).
Proof.
  unfold rank. rewrite roleHierarchy_own.
  destruct (String.eqb _ "user") eqn:Huser.
  - apply String.eqb_eq in Huser. rewrite Huser. split.
    + intros [= <-]. auto.
    + intros [[_ ->]|[? _]]; [reflexivity | discriminate].
  - apply String.eqb_neq in Huser.
    destruct (String.eqb _ "admin") eqn:Hadmin.
    + apply String.eqb_eq in Hadmin. rewrite Hadmin. split.
      * intros [= <-]. auto.
      * intros [[? _]|[_ ->]]; [discriminate | reflexivity].
    + apply String.eqb_neq in Hadmin. split; [discriminate|].
      intros [[? _]|[? _]]; contradiction.
Qed.

(** Where either role is one of [user] and [admin], [hasRole] compares
    ranks, and an unknown or absent role on the other side gives
    [false]. *)
Lemma hasRole_known (userRole requiredRole : jsval) :
  is_Some (rank userRole) \/ is_Some (rank requiredRole) ->
  (hasRole userRole requiredRole = true <->
   exists x y, rank userRole = Some x /\ rank requiredRole = Some y /\ y <= x).
Proof.
  unfold hasRole, rank, get, js_ge, js_lt. intros Hknown.
  destruct (roleHierarchy !! to_property_key userRole) as [x|] eqn:Hx;
    destruct (roleHierarchy !! to_property_key requiredRole) as [y|] eqn:Hy.
  - rewrite negb_true_iff, Z.ltb_ge. split.
    + intros Hle. exists x, y. auto.
    + intros (x' & y' & [= <-] & [= <-] & Hle). exact Hle.
  - split; [|intros (? & ? & _ & ? & _); discriminate].
    destruct (object_prototype _); discriminate.
  - split; [|intros (? & ? & ? & _); discriminate].
    destruct (object_prototype _); discriminate.
  - destruct Hknown as [[? ?]|[? ?]]; discriminate.
Qed.

(** Where neither role is known, [hasRole] compares what the two keys
    inherit from [Object.prototype], as strings. *)
Lemma hasRole_unknown (userRole requiredRole : jsval) :
  rank userRole = None -> rank requiredRole = None ->
  (hasRole userRole requiredRole = true <->
   exists s t, object_prototype (to_property_key userRole) = Some s
               /\ object_prototype (to_property_key requiredRole) = Some t
               /\ String.ltb s t = false).
Proof.
  unfold hasRole, rank, get, js_ge, js_lt. intros -> ->.
  destruct (object_prototype (to_property_key userRole)) as [s|];
    destruct (object_prototype (to_property_key requiredRole)) as [t|].
  - rewrite negb_true_iff. split.
    + intros Hlt. exists s, t. auto.
    + intros (s' & t' & [= <-] & [= <-] & Hlt). exact Hlt.
  - split; [discriminate | intros (? & ? & _ & ? & _); discriminate].
  - split; [discriminate | intros (? & ? & ? & _); discriminate].
  - split; [discriminate | intros (? & ? & ? & _); discriminate].
Qed.

(** The examples of the design document and of the unit tests. *)
Example hasRole_examples :
  hasRole (JStr "admin") (JStr "user") = true
  /\ hasRole (JStr "user") (JStr "admin") = false
  /\ hasRole (JStr "user") (JStr "user") = true
  /\ hasRole (JStr "admin") (JStr "admin") = true
  /\ hasRole JUndefined (JStr "user") = false
  /\ hasRole (JStr "user") JUndefined = false
  /\ hasRole (JStr "invalid") (JStr "user") = false
  /\ hasRole (JStr "user") (JStr "invalid") = false.
Proof. repeat split; vm_compute; reflexivity. Qed.

(** Claim C3 on the code: two roles outside the hierarchy whose keys name
    members of [Object.prototype] are compared as the texts of those
    members, and a role is granted: [hasRole('constructor', 'constructor')]
    is [true], where the claim and the unit test of invalid roles expect
    [false]. *)
Theorem hasRole_inherited_member :
  rank (JStr "constructor") = None
  /\ hasRole (JStr "constructor") (JStr "constructor") = true
  /\ hasRole (JStr "valueOf") (JStr "toString") = true.
Proof. repeat split; vm_compute; reflexivity. Qed.

(** ** The reference token library meets the contract *)

Section RefJwtFacts.
Import RefJwt.

Lemma occurs_append c a b : occurs c (a +:+ b) = occurs c a || occurs c b.
Proof.
  induction a as [|d rest IH]; simpl; [reflexivity|].
  rewrite IH. apply orb_assoc.
Qed.

Lemma append_char c s : String c EmptyString +:+ s = String c s.
Proof. reflexivity. Qed.

Lemma undigit_digit b : undigit (digit b) = Some b.
Proof. destruct b; reflexivity. Qed.

Lemma digit_other c b :
  Ascii.eqb "0" c = false -> Ascii.eqb "1" c = false -> Ascii.eqb (digit b) c = false.
Proof. destruct b; auto. Qed.

Lemma read_write_string s : read_string (write_string s) = Some s.
Proof.
  induction s as [|[b0 b1 b2 b3 b4 b5 b6 b7] rest IH]; [reflexivity|].
  cbn [write_string read_string]. rewrite !undigit_digit. cbn [mbind option_bind].
  rewrite IH. reflexivity.
Qed.

Lemma occurs_write_string c s :
  Ascii.eqb "0" c = false -> Ascii.eqb "1" c = false ->
  occurs c (write_string s) = false.
Proof.
  intros H0 H1.
  induction s as [|[b0 b1 b2 b3 b4 b5 b6 b7] rest IH]; [reflexivity|].
  cbn [write_string occurs]. rewrite !digit_other by assumption.
  rewrite IH. reflexivity.
Qed.

Lemma read_write_positive p : read_positive (write_positive p) = Some p.
Proof.
  induction p as [q IH|q IH|]; simpl; [| |reflexivity]; rewrite IH; reflexivity.
Qed.

Lemma occurs_write_positive c p :
  Ascii.eqb "0" c = false -> Ascii.eqb "1" c = false ->
  occurs c (write_positive p) = false.
Proof.
  intros H0 H1. induction p as [q IH|q IH|]; cbn [write_positive occurs];
    [| |reflexivity]; rewrite IH, ?H0, ?H1; reflexivity.
Qed.

Lemma read_write_Z z : read_Z (write_Z z) = Some z.
Proof. destruct z; simpl; [reflexivity| |]; rewrite read_write_positive; reflexivity. Qed.

Lemma read_write_value v : read_value (write_value v) = Some (json_value v).
Proof. destruct v; simpl; try reflexivity; rewrite read_write_string; reflexivity. Qed.

Lemma occurs_write_Z c z :
  c = "_"%char \/ c = "."%char -> occurs c (write_Z z) = false.
Proof.
  intros [-> | ->]; destruct z; simpl; try reflexivity;
    apply occurs_write_positive; reflexivity.
Qed.

Lemma occurs_write_value c v :
  c = "_"%char \/ c = "."%char -> occurs c (write_value v) = false.
Proof.
  intros [-> | ->]; destruct v; simpl; try reflexivity;
    apply occurs_write_string; reflexivity.
Qed.

Lemma read_write_claims p issued expires :
  read_claims (write_claims p issued expires)
  = Some (Decoded.of_payload p issued expires).
Proof.
  unfold read_claims, write_claims. rewrite !append_char.
  rewrite !split_append by (apply occurs_write_value; auto).
  rewrite split_append by (apply occurs_write_Z; auto).
  rewrite split_without by (apply occurs_write_Z; auto).
  rewrite !read_write_value, !read_write_Z. reflexivity.
Qed.

Lemma occurs_write_claims p issued expires :
  occurs "." (write_claims p issued expires) = false.
Proof.
  unfold write_claims.
  rewrite !occurs_append, !occurs_write_value, !occurs_write_Z by auto.
  reflexivity.
Qed.

(** The reference library satisfies the contract of [jwt.sign] and
    [jwt.verify]. *)
Lemma refjwt_lawful : jwt_lawful lib.
Proof.
  intros payload secret expiresIn now t Ht.
  cbn [jwt_sign jwt_verify lib]. unfold sign, verify, header. rewrite !append_char.
  rewrite (split_append "." "jwt") by reflexivity.
  rewrite split_append by apply occurs_write_claims.
  rewrite split_without by (apply occurs_write_string; reflexivity).
  rewrite String.eqb_refl, read_write_claims, String.eqb_refl. cbn [negb].
  cbn [Decoded.exp Decoded.of_payload].
  destruct (Z.leb_spec (now + expiresIn) t) as [Hle|_]; [lia | reflexivity].
Qed.
End RefJwtFacts.

(** ** [generateToken] and [verifyToken] *)

Section Tokens.
Context {jwt : JsonWebToken} (cfg : Config).

(** [verifyToken] returns what the library returns, and throws its own
    error whenever the library throws. *)
Lemma verifyToken_cases (now : Z) (token : string) :
  (exists decoded, jwt_verify token (JWT_SECRET cfg) now = Return decoded
                   /\ verifyToken cfg now token = Return decoded)
  \/ ((exists error, jwt_verify token (JWT_SECRET cfg) now = Throw error)
      /\ verifyToken cfg now token = Throw (Exn "Error" "Invalid token")).
Proof.
  unfold verifyToken.
  destruct (jwt_verify token (JWT_SECRET cfg) now) as [decoded|error]; eauto.
Qed.

Lemma verifyToken_invalid (now : Z) (token : string) (error : exn) :
  jwt_verify token (JWT_SECRET cfg) now = Throw error ->
  verifyToken cfg now token = Throw (Exn "Error" "Invalid token").
Proof. unfold verifyToken. intros ->. reflexivity. Qed.

(** A token read back at a time [t] before its expiry gives the claims
    the payload had, as JSON carries them. *)
Lemma verifyToken_generateToken_claims (now t : Z) (u : User) :
  jwt_lawful jwt ->
  t < now + JWT_EXPIRE cfg ->
  verifyToken cfg t (generateToken cfg now u)
  = Return {| Decoded.id := json_value (_id u);
              Decoded.username := json_value (username u);
              Decoded.email := json_value (email u);
              Decoded.role := json_value (role u);
              Decoded.iat := now;
              Decoded.exp := now + JWT_EXPIRE cfg |}.
Proof.
  intros Hlaw Ht. unfold verifyToken, generateToken.
  rewrite Hlaw by assumption. reflexivity.
Qed.
End Tokens.

(** Claim C1: for an identity whose id, username, email and role are
    strings, a token issued at [now] and verified at any time [t] before
    its expiry verifies, and the decoded snapshot carries the identity's
    id, username, email and role (with any library that meets the contract
    of [jwt.sign] and [jwt.verify]). *)
Theorem verifyToken_generateToken (jwt : JsonWebToken) (cfg : Config)
    (now t : Z) (u : User) (i n e r : string) :
  jwt_lawful jwt ->
  _id u = JStr i -> username u = JStr n -> email u = JStr e -> role u = JStr r ->
  t < now + JWT_EXPIRE cfg ->
  exists decoded,
    verifyToken cfg t (generateToken cfg now u) = Return decoded
    /\ Decoded.id decoded = _id u
    /\ Decoded.username decoded = username u
    /\ Decoded.email decoded = email u
    /\ Decoded.role decoded = role u
    /\ Decoded.exp decoded = now + JWT_EXPIRE cfg.
Proof.
  intros Hlaw Hi Hn He Hr Ht. eexists. split.
  - apply verifyToken_generateToken_claims; assumption.
  - cbn. rewrite Hi, Hn, He, Hr. repeat split.
Qed.

Lemma verifyToken_generateToken_witness :
  exists decoded,
    verifyToken (jwt := RefJwt.lib) default_config 1700000500
      (generateToken (jwt := RefJwt.lib) default_config 1700000000 mockUser)
    = Return decoded
    /\ Decoded.id decoded = JStr "507f1f77bcf86cd799439011"
    /\ Decoded.username decoded = JStr "testuser"
    /\ Decoded.email decoded = JStr "test@example.com"
    /\ Decoded.role decoded = JStr "user"
    /\ Decoded.exp decoded = 1700604800.
Proof.
  apply (verifyToken_generateToken RefJwt.lib default_config 1700000000 1700000500
           mockUser "507f1f77bcf86cd799439011" "testuser" "test@example.com" "user"
           refjwt_lawful);
    [reflexivity | reflexivity | reflexivity | reflexivity | vm_compute; reflexivity].
Defined.

(** Claim C4, as the code has it: for every token string, [verifyToken]
    either returns the decoded snapshot or throws to its caller one fixed
    error, [Error('Invalid token')], in place of whatever the token library
    threw. *)
Theorem verifyToken_returns_or_throws (jwt : JsonWebToken) (cfg : Config)
    (now : Z) (token : string) :
  (exists decoded, jwt_verify token (JWT_SECRET cfg) now = Return decoded
                   /\ verifyToken cfg now token = Return decoded)
  \/ ((exists error, jwt_verify token (JWT_SECRET cfg) now = Throw error)
      /\ verifyToken cfg now token = Throw (Exn "Error" "Invalid token")).
Proof. apply verifyToken_cases. Qed.

(** Claim C4, as stated, fails: on the malformed token of the unit tests
    [verifyToken] returns no tagged result, it throws. *)
Lemma verifyToken_throws_to_caller :
  verifyToken (jwt := RefJwt.lib) default_config 1700000000 "not-a-token"
  = Throw (Exn "Error" "Invalid token")
  /\ ~ (exists result, verifyToken (jwt := RefJwt.lib) default_config 1700000000
                         "not-a-token" = Return result).
Proof. split; [reflexivity | intros [result H]; discriminate]. Qed.

(** Claim C5: any two tokens the library rejects, for whatever reason and
    at whatever time, get the same outcome from [verifyToken], the error
    [Error('Invalid token')], which says nothing about the cause. *)
Theorem verifyToken_uniform_failure (jwt : JsonWebToken) (cfg : Config)
    (now1 now2 : Z) (t1 t2 : string) (e1 e2 : exn) :
  jwt_verify t1 (JWT_SECRET cfg) now1 = Throw e1 ->
  jwt_verify t2 (JWT_SECRET cfg) now2 = Throw e2 ->
  verifyToken cfg now1 t1 = verifyToken cfg now2 t2
  /\ verifyToken cfg now1 t1 = Throw (Exn "Error" "Invalid token").
Proof.
  intros H1 H2.
  rewrite (verifyToken_invalid cfg now1 t1 e1 H1), (verifyToken_invalid cfg now2 t2 e2 H2).
  split; reflexivity.
Qed.

Lemma verifyToken_uniform_failure_witness :
  jwt_verify (JsonWebToken := RefJwt.lib) expiredToken (JWT_SECRET default_config) 1700000000
  = Throw (Exn "TokenExpiredError" "jwt expired")
  /\ jwt_verify (JsonWebToken := RefJwt.lib) forgedToken (JWT_SECRET default_config) 1700000000
     = Throw (Exn "JsonWebTokenError" "invalid signature")
  /\ verifyToken (jwt := RefJwt.lib) default_config 1700000000 expiredToken
     = verifyToken (jwt := RefJwt.lib) default_config 1700000000 forgedToken
  /\ verifyToken (jwt := RefJwt.lib) default_config 1700000000 expiredToken
     = Throw (Exn "Error" "Invalid token").
Proof.
  assert (H1 : jwt_verify (JsonWebToken := RefJwt.lib) expiredToken
                 (JWT_SECRET default_config) 1700000000
               = Throw (Exn "TokenExpiredError" "jwt expired"))
    by (vm_compute; reflexivity).
  assert (H2 : jwt_verify (JsonWebToken := RefJwt.lib) forgedToken
                 (JWT_SECRET default_config) 1700000000
               = Throw (Exn "JsonWebTokenError" "invalid signature"))
    by (vm_compute; reflexivity).
  split; [exact H1 | split; [exact H2 |]].
  exact (verifyToken_uniform_failure RefJwt.lib default_config 1700000000 1700000000
           expiredToken forgedToken _ _ H1 H2).
Defined.

(** ** Decisions of the middleware *)

(** Unfolds the monad of a middleware applied to a state. *)
Ltac run_monad :=
  unfold mbind, M_bind, mret, M_ret, read, lift, try_catch; cbn beta iota zeta.

(** Reads the decision off the effects [next], [deny], [log] and [set_user]
    left in the goal. *)
Ltac read_decision :=
  unfold decision, log, deny, next, set_user; cbn [sent next_calls];
  rewrite ?take_app_length, ?firstn_all;
  rewrite bool_decide_eq_true_2 by reflexivity;
  rewrite ?drop_app_length, ?drop_all, ?Nat.eqb_refl;
  reflexivity.

Section Decisions.
Context (cfg : Config).

(** [requireRole] decides as [authorizeRole] of the design document. *)
Lemma requireRole_decision (requiredRole : jsval) (s : State) :
  decision s (requireRole cfg requiredRole s)
  = match user (req s) with
    | None => Unauthenticated
    | Some u => if hasRole (role u) requiredRole then Allowed else InsufficientRole
    end.
Proof.
  unfold requireRole. run_monad.
  destruct (user (req s)) as [u|]; [|read_decision].
  destruct (hasRole (role u) requiredRole); cbn [negb]; read_decision.
Qed.

(** The decision of [requireOwnership], case by case. *)
Lemma requireOwnership_decision (resourceField : option string) (s : State) :
  decision s (requireOwnership cfg resourceField s)
  = match user (req s) with
    | None => Unauthenticated
    | Some u =>
        if strict_eq_string (role u) "admin" then Allowed
        else
          let owner := owner_id (req s) (default "author" resourceField) in
          if negb (truthy_member owner) then NotOwner
          else
            match toString_member owner, toString (_id u) with
            | Return theirs, Return mine =>
                if String.eqb theirs mine then Allowed else NotOwner
            | Throw e, _ => Raised e
            | Return _, Throw e => Raised e
            end
    end.
Proof.
  unfold requireOwnership, owner_id. run_monad.
  destruct (user (req s)) as [u|]; [|read_decision].
  destruct (strict_eq_string (role u) "admin"); [read_decision|].
  destruct (truthy_member _); cbn [negb]; [|read_decision].
  destruct (toString_member _) as [theirs|e]; [|reflexivity].
  destruct (toString (_id u)) as [mine|e]; [|reflexivity].
  destruct (String.eqb theirs mine); cbn [negb]; read_decision.
Qed.
End Decisions.

Section Frames.
Context (cfg : Config).

(** Neither check changes the request or the clock. *)
Lemma requireRole_frame (requiredRole : jsval) (s : State) :
  req (snd (requireRole cfg requiredRole s)) = req s
  /\ clock (snd (requireRole cfg requiredRole s)) = clock s.
Proof.
  unfold requireRole. run_monad.
  destruct (user (req s)) as [u|]; [|split; reflexivity].
  destruct (hasRole (role u) requiredRole); split; reflexivity.
Qed.

Lemma requireOwnership_frame (resourceField : option string) (s : State) :
  req (snd (requireOwnership cfg resourceField s)) = req s
  /\ clock (snd (requireOwnership cfg resourceField s)) = clock s.
Proof.
  unfold requireOwnership. run_monad.
  destruct (user (req s)) as [u|]; [|split; reflexivity].
  destruct (strict_eq_string (role u) "admin"); [split; reflexivity|].
  destruct (truthy_member _); cbn [negb]; [|split; reflexivity].
  destruct (toString_member _) as [theirs|e]; [|split; reflexivity].
  destruct (toString (_id u)) as [mine|e]; [|split; reflexivity].
  destruct (String.eqb theirs mine); split; reflexivity.
Qed.
End Frames.

Lemma strict_eq_string_true (v : jsval) (s : string) :
  strict_eq_string v s = true <-> v = JStr s.
Proof.
  destruct v as [| |t|h]; simpl; try (split; discriminate).
  rewrite String.eqb_eq. split; [intros ->; reflexivity | intros [= ->]; reflexivity].
Qed.

Lemma strict_eq_string_false (v : jsval) (s : string) :
  strict_eq_string v s = false <-> v <> JStr s.
Proof.
  rewrite <- strict_eq_string_true. destruct (strict_eq_string v s); split; congruence.
Qed.

(** ** [requireOwnership] *)

(** The decision of [requireOwnership] for any caller whose id has a string
    form, the empty one included: without a caller the check answers
    [Unauthenticated]; for a caller whose role is ['admin'] it allows,
    whatever the resource; for any other caller it allows exactly when the
    owner id read from the resource is truthy and has the same string form
    as the caller's id, and answers [NotOwner] otherwise. *)
Lemma requireOwnership_by_cases (cfg : Config) (resourceField : option string)
    (s : State) :
  let owner := owner_id (req s) (default "author" resourceField) in
  let outcome := decision s (requireOwnership cfg resourceField s) in
  (user (req s) = None -> outcome = Unauthenticated)
  /\ (forall u, user (req s) = Some u -> role u = JStr "admin" -> outcome = Allowed)
  /\ (forall u mine,
        user (req s) = Some u -> role u <> JStr "admin" ->
        toString (_id u) = Return mine ->
        (outcome = Allowed <->
         truthy_member owner = true /\ toString_member owner = Return mine)
        /\ (outcome = Allowed \/ outcome = NotOwner)).
Proof.
  cbv zeta. rewrite requireOwnership_decision. cbv zeta.
  set (owner := owner_id _ _).
  split; [|split].
  - intros ->. reflexivity.
  - intros u -> Hadmin. apply strict_eq_string_true in Hadmin.
    rewrite Hadmin. reflexivity.
  - intros u mine -> Hrole Hmine. apply strict_eq_string_false in Hrole.
    rewrite Hrole, Hmine.
    destruct (truthy_member owner) eqn:Htruthy; cbn [negb].
    + destruct (toString_member owner) as [theirs|e] eqn:Htheirs.
      * destruct (String.eqb theirs mine) eqn:Heq.
        -- apply String.eqb_eq in Heq as ->.
           split; [split; auto | left; reflexivity].
        -- apply String.eqb_neq in Heq. split; [|right; reflexivity].
           split; [discriminate|]. intros [_ [= ?]]. contradiction.
      * exfalso. destruct owner as [[| |t|h]| |]; discriminate.
    + split; [|right; reflexivity].
      split; [discriminate | intros [? _]; discriminate].
Qed.

(** The examples of the design document. *)
Example authorizeOwnership_examples :
  authorizeOwnership (Some (caller "u1" "admin")) (JStr "u2") = Allowed
  /\ authorizeOwnership (Some (caller "u1" "user")) (JStr "u1") = Allowed
  /\ authorizeOwnership (Some (caller "u1" "user")) (JStr "u2") = NotOwner
  /\ authorizeOwnership (Some (caller "u1" "user")) (JOid "u1") = Allowed
  /\ authorizeOwnership None (JStr "u1") = Unauthenticated.
Proof. repeat split; vm_compute; reflexivity. Qed.

(** The guard [!resourceUserId] at work: an empty owner id is denied, even
    against a caller whose id is the empty string too. No identity has
    such an id. *)
Lemma requireOwnership_empty_owner :
  toString (_id (caller EmptyString "user")) = toString (JStr EmptyString)
  /\ authorizeOwnership (Some (caller EmptyString "user")) (JStr EmptyString) = NotOwner
  /\ authorizeOwnership (Some (caller EmptyString "user")) (JStr EmptyString) <> Allowed.
Proof. split; [|split]; vm_compute; [reflexivity | reflexivity | discriminate]. Qed.

(** Claim C2: for every caller and every owner id read from the resource:
    without a caller the check answers [Unauthenticated]; for a caller
    whose role is ['admin'] it allows, whatever the owner id is; for any
    other caller, whose id has a non-empty string form as the id of every
    identity has, it allows exactly when the owner id has the same string
    form as the caller's id (a string and an [ObjectId] with the same text
    compare equal), and answers [NotOwner] in every other case, an absent
    or empty owner id included. *)
Theorem requireOwnership_authorizes (cfg : Config) (resourceField : option string)
    (s : State) :
  let owner := owner_id (req s) (default "author" resourceField) in
  let outcome := decision s (requireOwnership cfg resourceField s) in
  (user (req s) = None -> outcome = Unauthenticated)
  /\ (forall u, user (req s) = Some u -> role u = JStr "admin" -> outcome = Allowed)
  /\ (forall u mine,
        user (req s) = Some u -> role u <> JStr "admin" ->
        toString (_id u) = Return mine -> mine <> EmptyString ->
        (outcome = Allowed <-> toString_member owner = Return mine)
        /\ (outcome = NotOwner <-> toString_member owner <> Return mine)).
Proof.
  cbv zeta. rewrite requireOwnership_decision. cbv zeta.
  set (owner := owner_id _ _).
  split; [|split].
  - intros ->. reflexivity.
  - intros u -> Hadmin. apply strict_eq_string_true in Hadmin.
    rewrite Hadmin. reflexivity.
  - intros u mine -> Hrole Hmine Hnonempty. apply strict_eq_string_false in Hrole.
    rewrite Hrole, Hmine.
    destruct (truthy_member owner) eqn:Htruthy; cbn [negb].
    + destruct (toString_member owner) as [theirs|e] eqn:Htheirs.
      * destruct (String.eqb theirs mine) eqn:Heq.
        -- apply String.eqb_eq in Heq as ->. split; split; try reflexivity.
           ++ discriminate.
           ++ intros Hne. destruct Hne. reflexivity.
        -- apply String.eqb_neq in Heq. split; split; try reflexivity.
           ++ discriminate.
           ++ intros [= ?]. contradiction.
           ++ intros _ [= ?]. contradiction.
      * exfalso. destruct owner as [[| |t|h]| |]; discriminate.
    + assert (Hdiffers : toString_member owner <> Return mine).
      { destruct owner as [[| |t|h]| |]; try discriminate.
        simpl in Htruthy. apply negb_false_iff, String.eqb_eq in Htruthy as ->.
        intros [= <-]. apply Hnonempty. reflexivity. }
      split; split; try reflexivity.
      * discriminate.
      * intros Heq. destruct (Hdiffers Heq).
      * intros _. exact Hdiffers.
Qed.

Lemma requireOwnership_authorizes_witness :
  decision (fresh (ownershipReq (Some (caller "u1" "user")) (JOid "u1")) 0)
    (requireOwnership default_config None
       (fresh (ownershipReq (Some (caller "u1" "user")) (JOid "u1")) 0))
  = Allowed
  /\ decision (fresh (ownershipReq (Some (caller "u1" "user")) (JStr EmptyString)) 0)
       (requireOwnership default_config None
          (fresh (ownershipReq (Some (caller "u1" "user")) (JStr EmptyString)) 0))
     = NotOwner.
Proof.
  split.
  - destruct (requireOwnership_authorizes default_config None
                (fresh (ownershipReq (Some (caller "u1" "user")) (JOid "u1")) 0))
      as (_ & _ & Hother).
    destruct (Hother (caller "u1" "user") "u1" eq_refl ltac:(discriminate) eq_refl
                ltac:(discriminate))
      as [[_ Hallow] _].
    apply Hallow. vm_compute. reflexivity.
  - destruct (requireOwnership_authorizes default_config None
                (fresh (ownershipReq (Some (caller "u1" "user")) (JStr EmptyString)) 0))
      as (_ & _ & Hother).
    destruct (Hother (caller "u1" "user") "u1" eq_refl ltac:(discriminate) eq_refl
                ltac:(discriminate))
      as [_ [_ Hdeny]].
    apply Hdeny. vm_compute. discriminate.
Defined.

(** Claim C10: for an authenticated caller who is no admin, the check
    allows only when the request carries a resource whose ownership field
    is truthy and has the string form of the caller's id; where the
    resource is absent, or its ownership field is absent or falsy, the
    check answers [NotOwner] with status 403: it neither allows nor
    throws. *)
Theorem requireOwnership_needs_resource (cfg : Config) (resourceField : option string)
    (s : State) (u : User) :
  user (req s) = Some u ->
  role u <> JStr "admin" ->
  let field := default "author" resourceField in
  let outcome := decision s (requireOwnership cfg resourceField s) in
  (outcome = Allowed ->
   exists o mine,
     resource (req s) = Some o
     /\ truthy_member (get o field) = true
     /\ toString_member (get o field) = Return mine
     /\ toString (_id u) = Return mine)
  /\ (resource (req s) = None -> outcome = NotOwner)
  /\ (forall o, resource (req s) = Some o -> truthy_member (get o field) = false ->
      outcome = NotOwner).
Proof.
  intros Huser Hrole. cbv zeta. rewrite requireOwnership_decision, Huser.
  apply strict_eq_string_false in Hrole. rewrite Hrole. cbv zeta.
  unfold owner_id. repeat split.
  - destruct (resource (req s)) as [o|]; [|discriminate].
    destruct (truthy_member (get o _)) eqn:Htruthy; cbn [negb]; [|discriminate].
    destruct (toString_member (get o _)) as [theirs|e] eqn:Htheirs; [|discriminate].
    destruct (toString (_id u)) as [mine|e]; [|discriminate].
    destruct (String.eqb theirs mine) eqn:Heq; [|discriminate].
    apply String.eqb_eq in Heq as ->. intros _. exists o, mine. auto.
  - intros ->. reflexivity.
  - intros o -> ->. reflexivity.
Qed.

Lemma requireOwnership_needs_resource_witness :
  decision (fresh {| authorization := None; user := Some (caller "u1" "user");
                     resource := Some {[ "title" := JStr "post" ]} |} 0)
    (requireOwnership default_config None
       (fresh {| authorization := None; user := Some (caller "u1" "user");
                 resource := Some {[ "title" := JStr "post" ]} |} 0))
  = NotOwner
  /\ decision (fresh {| authorization := None; user := Some (caller "u1" "user");
                        resource := None |} 0)
       (requireOwnership default_config None
          (fresh {| authorization := None; user := Some (caller "u1" "user");
                    resource := None |} 0))
     = NotOwner.
Proof.
  split.
  - destruct (requireOwnership_needs_resource default_config None
                (fresh {| authorization := None; user := Some (caller "u1" "user");
                          resource := Some {[ "title" := JStr "post" ]} |} 0)
                (caller "u1" "user") eq_refl ltac:(discriminate))
      as (_ & _ & Hfalsy).
    apply (Hfalsy {[ "title" := JStr "post" ]} eq_refl). vm_compute. reflexivity.
  - destruct (requireOwnership_needs_resource default_config None
                (fresh {| authorization := None; user := Some (caller "u1" "user");
                          resource := None |} 0)
                (caller "u1" "user") eq_refl ltac:(discriminate))
      as (_ & Habsent & _).
    apply Habsent. reflexivity.
Defined.

(** ** Purity of the two checks *)

(** Claim C8: the decisions of [requireRole] and [requireOwnership] are
    functions of the request and of the required role or resource field
    alone: two evaluations on the same request decide alike, whatever the
    responses sent before, the calls of [next] before, the console, the
    clock and the configuration are; an evaluation leaves the request as it
    was, and evaluating again in the state the first evaluation left
    decides as the first did. *)
Theorem authorization_checks_pure (cfg1 cfg2 : Config) (requiredRole : jsval)
    (resourceField : option string) (s1 s2 : State) :
  req s1 = req s2 ->
  decision s1 (requireRole cfg1 requiredRole s1)
  = decision s2 (requireRole cfg2 requiredRole s2)
  /\ decision s1 (requireOwnership cfg1 resourceField s1)
     = decision s2 (requireOwnership cfg2 resourceField s2)
  /\ (let after := snd (requireRole cfg1 requiredRole s1) in
      req after = req s1
      /\ decision after (requireRole cfg1 requiredRole after)
         = decision s1 (requireRole cfg1 requiredRole s1))
  /\ (let after := snd (requireOwnership cfg1 resourceField s1) in
      req after = req s1
      /\ decision after (requireOwnership cfg1 resourceField after)
         = decision s1 (requireOwnership cfg1 resourceField s1)).
Proof.
  intros Hreq. cbv zeta.
  destruct (requireRole_frame cfg1 requiredRole s1) as [Hrole _].
  destruct (requireOwnership_frame cfg1 resourceField s1) as [Hown _].
  rewrite !requireRole_decision, !requireOwnership_decision.
  rewrite Hrole, Hown, Hreq. repeat split; reflexivity.
Qed.

Lemma authorization_checks_pure_witness :
  decision (fresh (ownershipReq (Some (caller "u1" "user")) (JStr "u2")) 0)
    (requireRole default_config (JStr "admin")
       (fresh (ownershipReq (Some (caller "u1" "user")) (JStr "u2")) 0))
  = decision (busy (ownershipReq (Some (caller "u1" "user")) (JStr "u2")))
      (requireRole default_config (JStr "admin")
         (busy (ownershipReq (Some (caller "u1" "user")) (JStr "u2"))))
  /\ decision (fresh (ownershipReq (Some (caller "u1" "user")) (JStr "u2")) 0)
       (requireOwnership default_config None
          (fresh (ownershipReq (Some (caller "u1" "user")) (JStr "u2")) 0))
     = decision (busy (ownershipReq (Some (caller "u1" "user")) (JStr "u2")))
         (requireOwnership default_config None
            (busy (ownershipReq (Some (caller "u1" "user")) (JStr "u2")))).
Proof.
  destruct (authorization_checks_pure default_config default_config (JStr "admin") None
              (fresh (ownershipReq (Some (caller "u1" "user")) (JStr "u2")) 0)
              (busy (ownershipReq (Some (caller "u1" "user")) (JStr "u2")))
              eq_refl)
    as (Hrole & Hown & _).
  split; [exact Hrole | exact Hown].
Defined.

(** ** [authenticateToken] and [optionalAuth] *)

Section Authentication.
Context {jwt : JsonWebToken} (cfg : Config).
Context (findById : jsval -> outcome (option User)).

(** The decision of [authenticateToken], case by case. *)
Lemma authenticateToken_decision (s : State) :
  decision s (authenticateToken cfg findById s)
  = match if_token (extractToken (authorization (req s))) with
    | None => Denied (denial 401 "Access token is required")
    | Some token =>
        match verifyToken cfg (clock s) token with
        | Throw _ => Denied (denial 401 "Invalid or expired token")
        | Return decoded =>
            match findById (Decoded.id decoded) with
            | Throw _ => Denied (denial 401 "Invalid or expired token")
            | Return None => Denied (denial 401 "User not found")
            | Return (Some u) =>
                if isActive u then Allowed
                else Denied (denial 401 "Account is deactivated")
            end
        end
    end.
Proof.
  unfold authenticateToken. run_monad.
  destruct (if_token _) as [token|]; [|read_decision].
  destruct (verifyToken cfg (clock s) token) as [decoded|e]; [|read_decision].
  destruct (findById (Decoded.id decoded)) as [[u|]|e]; [|read_decision|read_decision].
  destruct (isActive u); cbn [negb]; read_decision.
Qed.

(** What [optionalAuth] does, case by case: it returns, sends nothing,
    calls [next] once, and sets [req.user] in one case only. *)
Lemma optionalAuth_run (s : State) :
  optionalAuth cfg findById s
  = (Return tt,
     {| req :=
          match if_token (extractToken (authorization (req s))) with
          | None => req s
          | Some token =>
              match verifyToken cfg (clock s) token with
              | Throw _ => req s
              | Return decoded =>
                  match findById (Decoded.id decoded) with
                  | Return (Some u) =>
                      if isActive u
                      then {| authorization := authorization (req s); user := Some u;
                              resource := resource (req s) |}
                      else req s
                  | _ => req s
                  end
              end
          end;
        sent := sent s; next_calls := S (next_calls s); console := console s;
        clock := clock s |}).
Proof.
  unfold optionalAuth. run_monad.
  destruct (if_token _) as [token|]; [|reflexivity].
  destruct (verifyToken cfg (clock s) token) as [decoded|e]; [|reflexivity].
  destruct (findById (Decoded.id decoded)) as [[u|]|e]; try reflexivity.
  destruct (isActive u); reflexivity.
Qed.
End Authentication.

(** Claim C7: the denials of a protected route are fixed. Without a token
    in the header [authenticateToken] answers 401 "Access token is
    required"; with a token the library rejects, for whatever reason, 401
    "Invalid or expired token"; [requireRole] answers 403 "Access denied -
    insufficient permissions" to a caller whose role does not reach the
    required one; and both [requireRole] and [requireOwnership] answer 401
    "Authentication required" where the request has no caller. Every body
    has [success: false]. *)
Theorem denials_are_fixed (jwt : JsonWebToken) (cfg : Config)
    (findById : jsval -> outcome (option User)) (s : State) :
  (if_token (extractToken (authorization (req s))) = None ->
   decision s (authenticateToken cfg findById s)
   = Denied {| status := 401;
               body := {| success := false; message := "Access token is required" |} |})
  /\ (forall token error,
        if_token (extractToken (authorization (req s))) = Some token ->
        jwt_verify token (JWT_SECRET cfg) (clock s) = Throw error ->
        decision s (authenticateToken cfg findById s)
        = Denied {| status := 401;
                    body := {| success := false; message := "Invalid or expired token" |} |})
  /\ (forall u requiredRole,
        user (req s) = Some u ->
        hasRole (role u) requiredRole = false ->
        decision s (requireRole cfg requiredRole s)
        = Denied {| status := 403;
                    body := {| success := false;
                               message := "Access denied - insufficient permissions" |} |})
  /\ (user (req s) = None ->
      forall requiredRole resourceField,
        decision s (requireRole cfg requiredRole s)
        = Denied {| status := 401;
                    body := {| success := false; message := "Authentication required" |} |}
        /\ decision s (requireOwnership cfg resourceField s)
           = Denied {| status := 401;
                       body := {| success := false; message := "Authentication required" |} |}).
Proof.
  split; [|split; [|split]].
  - intros Hnone. rewrite authenticateToken_decision, Hnone. reflexivity.
  - intros token error Htoken Hinvalid.
    rewrite authenticateToken_decision, Htoken.
    rewrite (verifyToken_invalid cfg (clock s) token error Hinvalid). reflexivity.
  - intros u requiredRole Huser Hrole.
    rewrite requireRole_decision, Huser, Hrole. reflexivity.
  - intros Huser requiredRole resourceField.
    rewrite requireRole_decision, requireOwnership_decision, Huser.
    split; reflexivity.
Qed.

Lemma denials_are_fixed_witness :
  decision (fresh mockReq 1700000000)
    (authenticateToken (jwt := RefJwt.lib) default_config mockFindById
       (fresh mockReq 1700000000))
  = Denied (denial 401 "Access token is required")
  /\ decision (fresh (bearer "Bearer invalid.jwt.token") 1700000000)
       (authenticateToken (jwt := RefJwt.lib) default_config mockFindById
          (fresh (bearer "Bearer invalid.jwt.token") 1700000000))
     = Denied (denial 401 "Invalid or expired token")
  /\ decision (fresh (ownershipReq (Some (caller "u1" "user")) (JStr "u1")) 1700000000)
       (requireRole default_config (JStr "admin")
          (fresh (ownershipReq (Some (caller "u1" "user")) (JStr "u1")) 1700000000))
     = InsufficientRole
  /\ decision (fresh mockReq 1700000000)
       (requireRole default_config (JStr "user") (fresh mockReq 1700000000))
     = Unauthenticated.
Proof.
  split; [|split; [|split]].
  - apply (denials_are_fixed RefJwt.lib default_config mockFindById
             (fresh mockReq 1700000000)).
    reflexivity.
  - destruct (denials_are_fixed RefJwt.lib default_config mockFindById
                (fresh (bearer "Bearer invalid.jwt.token") 1700000000))
      as (_ & Hinvalid & _).
    apply (Hinvalid "invalid.jwt.token" (Exn "JsonWebTokenError" "invalid token"));
      vm_compute; reflexivity.
  - destruct (denials_are_fixed RefJwt.lib default_config mockFindById
                (fresh (ownershipReq (Some (caller "u1" "user")) (JStr "u1")) 1700000000))
      as (_ & _ & Hrole & _).
    apply (Hrole (caller "u1" "user") (JStr "admin")); vm_compute; reflexivity.
  - destruct (denials_are_fixed RefJwt.lib default_config mockFindById
                (fresh mockReq 1700000000))
      as (_ & _ & _ & Hnone).
    apply (Hnone eq_refl (JStr "user") None).
Defined.

(** Claim C9: whatever the header, the token and the user store give,
    [optionalAuth] returns without throwing, sends no response and calls
    [next] exactly once; it leaves the request as it was unless the header
    carries a token that verifies and the user looked up by the token's id
    exists and is active, and in that case it sets [req.user] to that
    user. *)
Theorem optionalAuth_always_continues (jwt : JsonWebToken) (cfg : Config)
    (findById : jsval -> outcome (option User)) (s : State) :
  exists after,
    optionalAuth cfg findById s = (Return tt, after)
    /\ sent after = sent s
    /\ next_calls after = S (next_calls s)
    /\ (req after = req s
        \/ exists token decoded u,
             if_token (extractToken (authorization (req s))) = Some token
             /\ verifyToken cfg (clock s) token = Return decoded
             /\ findById (Decoded.id decoded) = Return (Some u)
             /\ isActive u = true
             /\ req after = {| authorization := authorization (req s); user := Some u;
                               resource := resource (req s) |})
    /\ (forall token decoded u,
          if_token (extractToken (authorization (req s))) = Some token ->
          verifyToken cfg (clock s) token = Return decoded ->
          findById (Decoded.id decoded) = Return (Some u) ->
          isActive u = true ->
          user (req after) = Some u).
Proof.
  eexists. split; [apply optionalAuth_run|]. cbn [req sent next_calls].
  split; [reflexivity|]. split; [reflexivity|]. split.
  - destruct (if_token _) as [token|]; [|left; reflexivity].
    destruct (verifyToken cfg (clock s) token) as [decoded|e] eqn:Hverify;
      [|left; reflexivity].
    destruct (findById (Decoded.id decoded)) as [[u|]|e] eqn:Hfind;
      try (left; reflexivity).
    destruct (isActive u) eqn:Hactive; [|left; reflexivity].
    right. exists token, decoded, u. auto.
  - intros token decoded u -> -> -> ->. reflexivity.
Qed.

Lemma optionalAuth_always_continues_witness :
  exists after,
    optionalAuth (jwt := RefJwt.lib) default_config mockFindById
      (fresh (bearer ("Bearer " +:+ generateToken (jwt := RefJwt.lib) default_config
                                     1700000000 mockUser)) 1700000500)
    = (Return tt, after)
    /\ sent after = []
    /\ next_calls after = 1%nat
    /\ user (req after) = Some mockUser.
Proof.
  destruct (optionalAuth_always_continues RefJwt.lib default_config mockFindById
              (fresh (bearer ("Bearer " +:+ generateToken (jwt := RefJwt.lib) default_config
                                             1700000000 mockUser)) 1700000500))
    as (after & Hrun & Hsent & Hnext & _ & Hattach).
  exists after. split; [exact Hrun|]. split; [exact Hsent|]. split; [exact Hnext|].
  eapply (Hattach (generateToken (jwt := RefJwt.lib) default_config 1700000000 mockUser));
    vm_compute; reflexivity.
Defined.

(** * Further properties *)

(** ** [authenticateToken] *)

Section AuthenticateToken.
Context {jwt : JsonWebToken} (cfg : Config).
Context (findById : jsval -> outcome (option User)).

(** What [authenticateToken] does where all four checks pass. *)
Lemma authenticateToken_run_success (s : State) token decoded u :
  if_token (extractToken (authorization (req s))) = Some token ->
  verifyToken cfg (clock s) token = Return decoded ->
  findById (Decoded.id decoded) = Return (Some u) ->
  isActive u = true ->
  authenticateToken cfg findById s = (Return tt, passed (attached u s)).
Proof.
  intros Htoken Hverify Hfind Hactive. unfold authenticateToken. run_monad.
  rewrite Htoken, Hverify, Hfind, Hactive. reflexivity.
Qed.

(** What it does in every other case: it returns, leaves the request and
    the count of [next] as they were, and sends one denial with status
    401. *)
Lemma authenticateToken_run_denied (s : State) :
  decision s (authenticateToken cfg findById s) <> Allowed ->
  exists (after : State) (msg : string),
    authenticateToken cfg findById s = (Return tt, after)
    /\ req after = req s
    /\ next_calls after = next_calls s
    /\ sent after = (sent s ++ [denial 401 msg])%list
    /\ In msg authentication_denials.
Proof.
  rewrite authenticateToken_decision. unfold authenticateToken. run_monad.
  destruct (if_token _) as [token|].
  - destruct (verifyToken cfg (clock s) token) as [decoded|e].
    + destruct (findById (Decoded.id decoded)) as [[u|]|e].
      * destruct (isActive u); cbn [negb]; [congruence|].
        intros _. eexists _, _. repeat split. simpl. tauto.
      * intros _. eexists _, _. repeat split. simpl. tauto.
      * intros _. eexists _, _. repeat split. simpl. tauto.
    + intros _. eexists _, _. repeat split. simpl. tauto.
  - intros _. eexists _, _. repeat split. simpl. tauto.
Qed.
End AuthenticateToken.

Lemma decision_of_denial (s after : State) (r : Response) :
  sent after = (sent s ++ [r])%list ->
  next_calls after = next_calls s ->
  decision s (Return tt, after) = Denied r.
Proof.
  intros Hsent Hnext. unfold decision. rewrite Hsent, Hnext.
  rewrite take_app_length, bool_decide_eq_true_2 by reflexivity.
  rewrite drop_app_length, Nat.eqb_refl. reflexivity.
Qed.

(** X1: [authenticateToken] lets a request pass exactly when the header
    carries a token, the token verifies, the user store finds a user under
    the token's id and that user is active; it then sets [req.user] to the
    record the store returned, whatever the token's own claims say, and
    calls [next] once. *)
Theorem authenticateToken_attaches_stored_user (jwt : JsonWebToken) (cfg : Config)
    (findById : jsval -> outcome (option User)) (s : State) :
  (decision s (authenticateToken cfg findById s) = Allowed <->
   exists token decoded u,
     if_token (extractToken (authorization (req s))) = Some token
     /\ verifyToken cfg (clock s) token = Return decoded
     /\ findById (Decoded.id decoded) = Return (Some u)
     /\ isActive u = true)
  /\ (forall token decoded u,
        if_token (extractToken (authorization (req s))) = Some token ->
        verifyToken cfg (clock s) token = Return decoded ->
        findById (Decoded.id decoded) = Return (Some u) ->
        isActive u = true ->
        authenticateToken cfg findById s = (Return tt, passed (attached u s))
        /\ user (req (passed (attached u s))) = Some u
        /\ sent (passed (attached u s)) = sent s
        /\ next_calls (passed (attached u s)) = S (next_calls s)).
Proof.
  split.
  - rewrite authenticateToken_decision. split.
    + destruct (if_token _) as [token|]; [|discriminate].
      destruct (verifyToken cfg (clock s) token) as [decoded|e] eqn:Hverify;
        [|discriminate].
      destruct (findById (Decoded.id decoded)) as [[u|]|e] eqn:Hfind; try discriminate.
      destruct (isActive u) eqn:Hactive; [|discriminate].
      intros _. exists token, decoded, u.
      repeat split; first [reflexivity | assumption].
    + intros (token & decoded & u & -> & -> & -> & ->). reflexivity.
  - intros token decoded u Htoken Hverify Hfind Hactive.
    split; [|repeat split].
    apply (authenticateToken_run_success cfg findById s token decoded u); assumption.
Qed.

Lemma authenticateToken_attaches_stored_user_witness :
  authenticateToken (jwt := RefJwt.lib) default_config promotedFindById presented
  = (Return tt, passed (attached promotedUser presented))
  /\ role <$> user (req (passed (attached promotedUser presented))) = Some (JStr "admin").
Proof.
  destruct (authenticateToken_attaches_stored_user RefJwt.lib default_config
              promotedFindById presented) as [_ Hrun].
  destruct (Hrun issuedToken
              (Decoded.of_payload
                 (Payload.make (_id mockUser) (username mockUser) (email mockUser)
                    (role mockUser))
                 1700000000 1700604800)
              promotedUser)
    as (Heq & _); [vm_compute; reflexivity ..|].
  split; [exact Heq | reflexivity].
Defined.

(** X2: for every header, every token library and every user store that
    finds a user, finds none or fails with an error object,
    [authenticateToken] returns without throwing, and either lets the
    request pass or sends exactly one denial, with status 401 and one of
    four messages, leaving the request as it was and [next] uncalled. *)
Theorem authenticateToken_allows_or_denies_401 (jwt : JsonWebToken) (cfg : Config)
    (findById : jsval -> outcome (option User)) (s : State) :
  fst (authenticateToken cfg findById s) = Return tt
  /\ (decision s (authenticateToken cfg findById s) = Allowed
      \/ exists msg,
           decision s (authenticateToken cfg findById s) = Denied (denial 401 msg)
           /\ In msg authentication_denials
           /\ req (snd (authenticateToken cfg findById s)) = req s
           /\ next_calls (snd (authenticateToken cfg findById s)) = next_calls s).
Proof.
  rewrite authenticateToken_decision. unfold authenticateToken. run_monad.
  destruct (if_token _) as [token|].
  - destruct (verifyToken cfg (clock s) token) as [decoded|e].
    + destruct (findById (Decoded.id decoded)) as [[u|]|e].
      * destruct (isActive u); cbn [negb]; (split; [reflexivity|]).
        -- left. reflexivity.
        -- right. exists "Account is deactivated". repeat split. simpl. tauto.
      * split; [reflexivity|]. right. exists "User not found".
        repeat split. simpl. tauto.
      * split; [reflexivity|]. right. exists "Invalid or expired token".
        repeat split. simpl. tauto.
    + split; [reflexivity|]. right. exists "Invalid or expired token".
      repeat split. simpl. tauto.
  - split; [reflexivity|]. right. exists "Access token is required".
    repeat split. simpl. tauto.
Qed.

(** X3: when the user store fails under a verified token, the client gets
    the denial of an invalid token, 401 "Invalid or expired token"; the
    cause goes to [logger.error] only, as the message of the line
    "Authentication failed". *)
Theorem authenticateToken_store_failure (jwt : JsonWebToken) (cfg : Config)
    (findById : jsval -> outcome (option User)) (s : State) token decoded e :
  if_token (extractToken (authorization (req s))) = Some token ->
  verifyToken cfg (clock s) token = Return decoded ->
  findById (Decoded.id decoded) = Throw e ->
  exists after,
    authenticateToken cfg findById s = (Return tt, after)
    /\ sent after = (sent s ++ [denial 401 "Invalid or expired token"])%list
    /\ next_calls after = next_calls s
    /\ req after = req s
    /\ console after
       = logger_error cfg (clock s) "Authentication failed"
           [("error", Own (JStr (exn_message e)))] (console s).
Proof.
  intros Htoken Hverify Hfind. unfold authenticateToken. run_monad.
  rewrite Htoken, Hverify, Hfind. eexists. repeat split.
Qed.

Lemma authenticateToken_store_failure_witness :
  exists after,
    authenticateToken (jwt := RefJwt.lib) default_config failingFindById presented
    = (Return tt, after)
    /\ sent after = [denial 401 "Invalid or expired token"]
    /\ console after
       = [formatMessage 1700000500 "error" "error" "Authentication failed"
            [("error", Own (JStr "connection lost"))]].
Proof.
  destruct (authenticateToken_store_failure RefJwt.lib default_config failingFindById
              presented issuedToken
              (Decoded.of_payload
                 (Payload.make (_id mockUser) (username mockUser) (email mockUser)
                    (role mockUser))
                 1700000000 1700604800)
              (Exn "MongoNetworkError" "connection lost"))
    as (after & Hrun & Hsent & _ & _ & Hconsole); [vm_compute; reflexivity ..|].
  exists after. split; [exact Hrun|]. split; [exact Hsent|].
  rewrite Hconsole. vm_compute. reflexivity.
Defined.

(** X4: issue, present, authenticate. A token [generateToken] issued for a
    user, sent back as "Bearer <token>" before its expiry, authenticates:
    the store is asked for the user's id in its JSON form, and the active
    user it returns becomes [req.user]. The token library must meet its
    contract and issue tokens that are not empty and hold no space. *)
Theorem issued_token_authenticates (jwt : JsonWebToken) (cfg : Config)
    (findById : jsval -> outcome (option User)) (now : Z) (s : State)
    (u stored : User) :
  jwt_lawful jwt ->
  occurs " " (generateToken cfg now u) = false ->
  generateToken cfg now u <> EmptyString ->
  authorization (req s) = Some ("Bearer " +:+ generateToken cfg now u) ->
  clock s < now + JWT_EXPIRE cfg ->
  findById (json_value (_id u)) = Return (Some stored) ->
  isActive stored = true ->
  authenticateToken cfg findById s = (Return tt, passed (attached stored s)).
Proof.
  intros Hlaw Hspace Hempty Hheader Hclock Hfind Hactive.
  eapply authenticateToken_run_success.
  - rewrite Hheader. apply if_token_extractToken. auto.
  - apply verifyToken_generateToken_claims; assumption.
  - exact Hfind.
  - exact Hactive.
Qed.

Lemma issued_token_authenticates_witness :
  authenticateToken (jwt := RefJwt.lib) default_config mockFindById presented
  = (Return tt, passed (attached mockUser presented)).
Proof.
  apply (issued_token_authenticates RefJwt.lib default_config mockFindById 1700000000
           presented mockUser mockUser refjwt_lawful);
    [vm_compute; reflexivity | vm_compute; discriminate | reflexivity
    | vm_compute; reflexivity | reflexivity | reflexivity].
Defined.

(** ** Routes *)

Lemma route_passes (handler : M unit) (rest : list (M unit)) (s after : State) :
  handler s = (Return tt, after) ->
  next_calls after = S (next_calls s) ->
  route (handler :: rest) s = route rest after.
Proof.
  intros Hrun Hnext. cbn [route]. rewrite Hrun, Hnext.
  rewrite (proj2 (Nat.ltb_lt _ _)) by lia. reflexivity.
Qed.

Lemma route_stops (handler : M unit) (rest : list (M unit)) (s after : State) :
  handler s = (Return tt, after) ->
  next_calls after = next_calls s ->
  route (handler :: rest) s = (Return tt, after).
Proof.
  intros Hrun Hnext. cbn [route]. rewrite Hrun, Hnext.
  rewrite Nat.ltb_irrefl. reflexivity.
Qed.

(** X5: the admin routes of [routes/users.js], [authenticateToken] then
    [requireRole('admin')] then the rest. With a verified token of an
    active user, the rest of the route runs exactly when the role in the
    user store's record is [admin], with that record as [req.user];
    otherwise the route ends with the answer of [requireRole] and the rest
    never runs. The role claimed inside the token plays no part. *)
Theorem admin_route_checks_stored_role (jwt : JsonWebToken) (cfg : Config)
    (findById : jsval -> outcome (option User)) (rest : list (M unit)) (s : State)
    token decoded u :
  if_token (extractToken (authorization (req s))) = Some token ->
  verifyToken cfg (clock s) token = Return decoded ->
  findById (Decoded.id decoded) = Return (Some u) ->
  isActive u = true ->
  (to_property_key (role u) = "admin" ->
   route (authenticateToken cfg findById :: requireRole cfg (JStr "admin") :: rest) s
   = route rest (passed (passed (attached u s))))
  /\ (to_property_key (role u) <> "admin" ->
      route (authenticateToken cfg findById :: requireRole cfg (JStr "admin") :: rest) s
      = requireRole cfg (JStr "admin") (passed (attached u s))
      /\ decision (passed (attached u s))
           (requireRole cfg (JStr "admin") (passed (attached u s)))
         = InsufficientRole).
Proof.
  intros Htoken Hverify Hfind Hactive.
  pose proof (authenticateToken_run_success cfg findById s token decoded u
                Htoken Hverify Hfind Hactive) as Hauth.
  assert (Hadmin : hasRole (role u) (JStr "admin") = true
                   <-> to_property_key (role u) = "admin").
  { rewrite hasRole_known by (right; eexists; reflexivity). split.
    - intros (x & y & Hx & Hy & Hle).
      apply rank_known in Hy as [[Hkey _]|[_ ->]]; [discriminate|].
      apply rank_known in Hx as [[_ ->]|[Hkey _]]; [lia | exact Hkey].
    - intros Hkey. exists 2, 2.
      split; [apply rank_known; right; auto | split; [reflexivity | lia]]. }
  split; intros Hrole.
  - rewrite (route_passes _ _ s _ Hauth) by reflexivity.
    apply route_passes; [|reflexivity].
    unfold requireRole. run_monad. cbn [passed attached next set_user snd req user].
    rewrite (proj2 Hadmin Hrole). reflexivity.
  - assert (Hdenied : hasRole (role u) (JStr "admin") = false).
    { destruct (hasRole (role u) (JStr "admin")); [|reflexivity].
      destruct Hrole. apply Hadmin. reflexivity. }
    split.
    + rewrite (route_passes _ _ s _ Hauth) by reflexivity.
      unfold requireRole at 2. cbn [route]. unfold requireRole. run_monad.
      cbn [passed attached next set_user snd req user]. rewrite Hdenied. cbn [negb].
      unfold log, deny. cbn [next_calls]. rewrite Nat.ltb_irrefl. reflexivity.
    + rewrite requireRole_decision. cbn [passed attached next set_user snd req user].
      rewrite Hdenied. reflexivity.
Qed.

Lemma admin_route_checks_stored_role_witness :
  route [authenticateToken (jwt := RefJwt.lib) default_config promotedFindById;
         requireRole default_config (JStr "admin"); controller] presented
  = controller (passed (passed (attached promotedUser presented)))
  /\ decision (passed (attached mockUser presented))
       (requireRole default_config (JStr "admin") (passed (attached mockUser presented)))
     = InsufficientRole.
Proof.
  split.
  - destruct (admin_route_checks_stored_role RefJwt.lib default_config promotedFindById
                [controller] presented issuedToken
                (Decoded.of_payload
                   (Payload.make (_id mockUser) (username mockUser) (email mockUser)
                      (role mockUser))
                   1700000000 1700604800)
                promotedUser)
      as [Hadmin _]; [vm_compute; reflexivity ..|].
    rewrite (Hadmin eq_refl). reflexivity.
  - destruct (admin_route_checks_stored_role RefJwt.lib default_config mockFindById
                [controller] presented issuedToken
                (Decoded.of_payload
                   (Payload.make (_id mockUser) (username mockUser) (email mockUser)
                      (role mockUser))
                   1700000000 1700604800)
                mockUser)
      as [_ Hother]; [vm_compute; reflexivity ..|].
    apply Hother. discriminate.
Defined.

(** X6: on a route that starts with [authenticateToken], as every
    protected route of [routes/posts.js], [routes/users.js] and
    [routes/auth.js] does, the handlers after it never run for a request it
    denies: the route ends with its answer. *)
Theorem protected_route_stops_at_denial (jwt : JsonWebToken) (cfg : Config)
    (findById : jsval -> outcome (option User)) (rest : list (M unit)) (s : State) :
  decision s (authenticateToken cfg findById s) <> Allowed ->
  route (authenticateToken cfg findById :: rest) s = authenticateToken cfg findById s
  /\ user (req (snd (authenticateToken cfg findById s))) = user (req s).
Proof.
  intros Hdenied.
  destruct (authenticateToken_run_denied cfg findById s Hdenied)
    as (after & msg & Hrun & Hreq & Hnext & _).
  rewrite (route_stops _ rest s after Hrun Hnext), Hrun. cbn [snd].
  rewrite Hreq. split; reflexivity.
Qed.

Lemma protected_route_stops_at_denial_witness :
  route [authenticateToken (jwt := RefJwt.lib) default_config mockFindById; controller]
    (fresh (bearer "Bearer invalid.jwt.token") 1700000000)
  = authenticateToken (jwt := RefJwt.lib) default_config mockFindById
      (fresh (bearer "Bearer invalid.jwt.token") 1700000000).
Proof.
  apply (protected_route_stops_at_denial RefJwt.lib default_config mockFindById
           [controller] (fresh (bearer "Bearer invalid.jwt.token") 1700000000)).
  vm_compute. discriminate.
Defined.

(** X7: on a route through [optionalAuth], as the two public routes of
    [routes/posts.js], the handlers after it run for every request, in the
    state [optionalAuth] left, where nothing more was sent: no header,
    token or user store can keep a request from a public route. *)
Theorem public_route_always_continues (jwt : JsonWebToken) (cfg : Config)
    (findById : jsval -> outcome (option User)) (rest : list (M unit)) (s : State) :
  route (optionalAuth cfg findById :: rest) s
  = route rest (snd (optionalAuth cfg findById s))
  /\ sent (snd (optionalAuth cfg findById s)) = sent s.
Proof.
  pose proof (optionalAuth_run cfg findById s) as Hrun. split.
  - rewrite (route_passes _ rest s _ Hrun) by reflexivity. rewrite Hrun. reflexivity.
  - rewrite Hrun. reflexivity.
Qed.

(** ** [hasRole] and [requireRole] *)

Lemma hasRole_requires_admin (r : jsval) :
  hasRole r (JStr "admin") = true <-> to_property_key r = "admin".
Proof.
  rewrite hasRole_known by (right; eexists; reflexivity). split.
  - intros (x & y & Hx & Hy & Hle).
    apply rank_known in Hy as [[Hkey _]|[_ ->]]; [discriminate|].
    apply rank_known in Hx as [[_ ->]|[Hkey _]]; [lia | exact Hkey].
  - intros Hkey. exists 2, 2.
    split; [apply rank_known; right; auto | split; [reflexivity | lia]].
Qed.

Lemma hasRole_requires_user (r : jsval) :
  hasRole r (JStr "user") = true
  <-> to_property_key r = "user" \/ to_property_key r = "admin".
Proof.
  rewrite hasRole_known by (right; eexists; reflexivity). split.
  - intros (x & y & Hx & _). apply rank_known in Hx as [[Hkey _]|[Hkey _]]; auto.
  - intros [Hkey|Hkey].
    + exists 1, 1. split; [apply rank_known; left; auto | split; [reflexivity | lia]].
    + exists 2, 1. split; [apply rank_known; right; auto | split; [reflexivity | lia]].
Qed.

(** X8: for a request with a caller, [requireRole('admin')], the check of
    the routes of [routes/users.js], allows exactly the callers whose role
    reads as the key [admin], and [requireRole('user')] exactly those whose
    role reads as [user] or [admin]; every other caller gets the denial
    for an insufficient role. *)
Theorem requireRole_admits (cfg : Config) (s : State) (u : User) :
  user (req s) = Some u ->
  (decision s (requireRole cfg (JStr "admin") s) = Allowed
   <-> to_property_key (role u) = "admin")
  /\ (decision s (requireRole cfg (JStr "user") s) = Allowed
      <-> to_property_key (role u) = "user" \/ to_property_key (role u) = "admin")
  /\ (forall requiredRole,
        decision s (requireRole cfg requiredRole s) = Allowed
        \/ decision s (requireRole cfg requiredRole s) = InsufficientRole).
Proof.
  intros Huser. rewrite !requireRole_decision, Huser.
  split; [|split].
  - rewrite <- hasRole_requires_admin.
    destruct (hasRole (role u) (JStr "admin")); split; intros H;
      first [reflexivity | discriminate H].
  - rewrite <- hasRole_requires_user.
    destruct (hasRole (role u) (JStr "user")); split; intros H;
      first [reflexivity | discriminate H].
  - intros requiredRole. rewrite requireRole_decision, Huser.
    destruct (hasRole (role u) requiredRole); auto.
Qed.

Lemma requireRole_admits_witness :
  decision (fresh (ownershipReq (Some (caller "u1" "admin")) (JStr "u2")) 0)
    (requireRole default_config (JStr "admin")
       (fresh (ownershipReq (Some (caller "u1" "admin")) (JStr "u2")) 0))
  = Allowed.
Proof.
  destruct (requireRole_admits default_config
              (fresh (ownershipReq (Some (caller "u1" "admin")) (JStr "u2")) 0)
              (caller "u1" "admin") eq_refl) as [Hadmin _].
  apply Hadmin. reflexivity.
Defined.

(** X9: a required role outside the hierarchy, which is also no member of
    [Object.prototype] (a misspelt role, or a missing argument), shuts the
    route for every caller, administrators included: the check fails
    closed. *)
Theorem requireRole_unknown_requirement (cfg : Config) (requiredRole : jsval)
    (s : State) (u : User) :
  user (req s) = Some u ->
  rank requiredRole = None ->
  object_prototype (to_property_key requiredRole) = None ->
  decision s (requireRole cfg requiredRole s) = InsufficientRole.
Proof.
  intros Huser Hrank Hproto. rewrite requireRole_decision, Huser.
  unfold hasRole, get, rank in *. rewrite Hrank, Hproto.
  unfold js_ge, js_lt.
  destruct (roleHierarchy !! to_property_key (role u));
    [|destruct (object_prototype (to_property_key (role u)))]; reflexivity.
Qed.

Lemma requireRole_unknown_requirement_witness :
  decision (fresh (ownershipReq (Some (caller "u1" "admin")) (JStr "u2")) 0)
    (requireRole default_config (JStr "moderator")
       (fresh (ownershipReq (Some (caller "u1" "admin")) (JStr "u2")) 0))
  = InsufficientRole
  /\ decision (fresh (ownershipReq (Some (caller "u1" "admin")) (JStr "u2")) 0)
       (requireRole default_config JUndefined
          (fresh (ownershipReq (Some (caller "u1" "admin")) (JStr "u2")) 0))
     = InsufficientRole.
Proof.
  split.
  - apply (requireRole_unknown_requirement default_config (JStr "moderator") _
             (caller "u1" "admin")); reflexivity.
  - apply (requireRole_unknown_requirement default_config JUndefined _
             (caller "u1" "admin")); reflexivity.
Defined.

Lemma hasRole_ranked (a b : jsval) (x y : Z) :
  rank a = Some x -> rank b = Some y -> (hasRole a b = true <-> y <= x).
Proof.
  intros Ha Hb. rewrite hasRole_known by (left; eexists; exact Ha). split.
  - intros (x' & y' & Hx & Hy & Hle). congruence.
  - intros Hle. exists x, y. auto.
Qed.

(** X10: on the roles of the hierarchy [hasRole] is a total order: every
    role has itself, of two roles one has the other, having is
    transitive, and two roles that have each other are the same key. *)
Theorem hasRole_total_order (a b c : jsval) :
  is_Some (rank a) -> is_Some (rank b) -> is_Some (rank c) ->
  hasRole a a = true
  /\ (hasRole a b = true \/ hasRole b a = true)
  /\ (hasRole a b = true -> hasRole b c = true -> hasRole a c = true)
  /\ (hasRole a b = true -> hasRole b a = true ->
      to_property_key a = to_property_key b).
Proof.
  intros [x Ha] [y Hb] [z Hc].
  rewrite (hasRole_ranked a a x x Ha Ha), (hasRole_ranked a b x y Ha Hb),
    (hasRole_ranked b a y x Hb Ha), (hasRole_ranked b c y z Hb Hc),
    (hasRole_ranked a c x z Ha Hc).
  split; [lia|]. split; [lia|]. split; [lia|].
  intros Hyx Hxy. assert (x = y) as -> by lia.
  apply rank_known in Ha as [[Hka Hx]|[Hka Hx]];
    apply rank_known in Hb as [[Hkb Hy]|[Hkb Hy]]; congruence.
Qed.

Lemma hasRole_total_order_witness :
  hasRole (JStr "admin") (JStr "admin") = true
  /\ (hasRole (JStr "admin") (JStr "user") = true
      \/ hasRole (JStr "user") (JStr "admin") = true).
Proof.
  destruct (hasRole_total_order (JStr "admin") (JStr "user") (JStr "user"))
    as (Hrefl & Htotal & _);
    [eexists; reflexivity | eexists; reflexivity | eexists; reflexivity |].
  split; [exact Hrefl | exact Htotal].
Defined.

(** ** [requireOwnership] without a caller id *)

Lemma truthy_member_prints (m : member jsval) :
  truthy_member m = true -> exists text, toString_member m = Return text.
Proof.
  destruct m as [[| |t|hex]|text|]; simpl; try discriminate; eauto.
Qed.

(** X11: for a caller who is no admin and has no [_id] ([undefined] or
    [null]), on a resource whose ownership field is truthy,
    [requireOwnership] throws a [TypeError]: it sends no response, does not
    call [next] and writes nothing to the console. *)
Theorem requireOwnership_throws_without_id (cfg : Config) (resourceField : option string)
    (s : State) (u : User) :
  user (req s) = Some u ->
  role u <> JStr "admin" ->
  truthy_member (owner_id (req s) (default "author" resourceField)) = true ->
  _id u = JUndefined \/ _id u = JNull ->
  exists e,
    requireOwnership cfg resourceField s = (Throw e, s)
    /\ exn_name e = "TypeError".
Proof.
  intros Huser Hrole Htruthy Hid. apply strict_eq_string_false in Hrole.
  destruct (truthy_member_prints _ Htruthy) as [theirs Htheirs].
  unfold requireOwnership. run_monad. unfold owner_id in Htruthy, Htheirs.
  rewrite Huser, Hrole, Htruthy, Htheirs. cbn [negb].
  destruct Hid as [-> | ->]; eexists; split; reflexivity.
Qed.

Lemma requireOwnership_throws_without_id_witness :
  exists e,
    requireOwnership default_config None
      (fresh (ownershipReq (Some anonymousCaller) (JStr "u2")) 0)
    = (Throw e, fresh (ownershipReq (Some anonymousCaller) (JStr "u2")) 0)
    /\ exn_name e = "TypeError".
Proof.
  apply (requireOwnership_throws_without_id default_config None
           (fresh (ownershipReq (Some anonymousCaller) (JStr "u2")) 0) anonymousCaller);
    [reflexivity | discriminate | vm_compute; reflexivity | left; reflexivity].
Defined.

(** ** Tokens of users with an [ObjectId] *)

(** X12: for a user whose [_id] is an [ObjectId], as Mongoose loads it, the
    snapshot read back from the token carries the id as a string, the
    hexadecimal form of the [ObjectId]: the string form of the id survives
    the round trip, its type does not. *)
Theorem verifyToken_generateToken_objectid (jwt : JsonWebToken) (cfg : Config)
    (now t : Z) (u : User) (hex : string) :
  jwt_lawful jwt ->
  _id u = JOid hex ->
  t < now + JWT_EXPIRE cfg ->
  exists decoded,
    verifyToken cfg t (generateToken cfg now u) = Return decoded
    /\ Decoded.id decoded = JStr hex
    /\ Decoded.id decoded <> _id u
    /\ toString (Decoded.id decoded) = toString (_id u).
Proof.
  intros Hlaw Hid Ht. eexists. split.
  - apply verifyToken_generateToken_claims; assumption.
  - cbn. rewrite Hid. repeat split. discriminate.
Qed.

Lemma verifyToken_generateToken_objectid_witness :
  exists decoded,
    verifyToken (jwt := RefJwt.lib) default_config 1700000500
      (generateToken (jwt := RefJwt.lib) default_config 1700000000 storedUser)
    = Return decoded
    /\ Decoded.id decoded = JStr "507f1f77bcf86cd799439011".
Proof.
  destruct (verifyToken_generateToken_objectid RefJwt.lib default_config
              1700000000 1700000500 storedUser "507f1f77bcf86cd799439011"
              refjwt_lawful eq_refl)
    as (decoded & Hverify & Hid & _); [vm_compute; reflexivity|].
  exists decoded. split; assumption.
Defined.

(** ** The logger *)

Lemma LOG_LEVELS_own (k : string) :
  LOG_LEVELS !! k
  = if String.eqb k "error" then Some 0
    else if String.eqb k "warn" then Some 1
    else if String.eqb k "info" then Some 2
    else if String.eqb k "debug" then Some 3 else None.
Proof.
  unfold LOG_LEVELS.
  destruct (String.eqb k "error") eqn:He.
  { apply String.eqb_eq in He as ->. reflexivity. }
  apply String.eqb_neq in He. rewrite lookup_insert_ne by congruence.
  destruct (String.eqb k "warn") eqn:Hw.
  { apply String.eqb_eq in Hw as ->. reflexivity. }
  apply String.eqb_neq in Hw. rewrite lookup_insert_ne by congruence.
  destruct (String.eqb k "info") eqn:Hi.
  { apply String.eqb_eq in Hi as ->. reflexivity. }
  apply String.eqb_neq in Hi. rewrite lookup_insert_ne by congruence.
  destruct (String.eqb k "debug") eqn:Hd.
  { apply String.eqb_eq in Hd as ->. reflexivity. }
  apply String.eqb_neq in Hd. apply lookup_singleton_ne. congruence.
Qed.

(** Which levels are written, for every [LOG_LEVEL]. *)
Lemma shouldLog_cases (cfg : Config) :
  let named := match object_prototype (LOG_LEVEL cfg) with
               | Some _ => false
               | None => true
               end in
  shouldLog cfg "error" = named
  /\ shouldLog cfg "warn" = named
  /\ shouldLog cfg "info" = named && negb (String.eqb (LOG_LEVEL cfg) "warn")
  /\ shouldLog cfg "debug" = String.eqb (LOG_LEVEL cfg) "debug".
Proof.
  cbv zeta. unfold shouldLog, getCurrentLogLevel.
  change (get LOG_LEVELS "error") with (Own 0 : member Z).
  change (get LOG_LEVELS "warn") with (Own 1 : member Z).
  change (get LOG_LEVELS "info") with (Own 2 : member Z).
  change (get LOG_LEVELS "debug") with (Own 3 : member Z).
  unfold get at 1 2 3 4 5 6 7 8. rewrite LOG_LEVELS_own.
  destruct (String.eqb (LOG_LEVEL cfg) "error") eqn:He.
  { apply String.eqb_eq in He. rewrite He. repeat split. }
  destruct (String.eqb (LOG_LEVEL cfg) "warn") eqn:Hw.
  { apply String.eqb_eq in Hw. rewrite Hw. repeat split. }
  destruct (String.eqb (LOG_LEVEL cfg) "info") eqn:Hi.
  { apply String.eqb_eq in Hi. rewrite Hi. repeat split. }
  destruct (String.eqb (LOG_LEVEL cfg) "debug") eqn:Hd.
  { apply String.eqb_eq in Hd. rewrite Hd. repeat split. }
  destruct (object_prototype (LOG_LEVEL cfg)); repeat split.
Qed.

(** X13: which lines reach the console, for every [LOG_LEVEL].
    [logger.error] and [logger.warn] write under every level, [logger.info]
    under every level but [warn], [logger.debug] only under the level
    [debug] and only in development. So the level [error] does not silence
    warnings and information: its rank 0 is falsy and the level falls back
    to [info]. The one exception is a [LOG_LEVEL] that names a member of
    [Object.prototype], under which nothing is written. *)
Theorem logger_writes (cfg : Config) (node_env : string) (now : Z) (msg : string)
    (m : list (string * member jsval)) (console : list LogLine) :
  let named := match object_prototype (LOG_LEVEL cfg) with
               | Some _ => false
               | None => true
               end in
  logger_error cfg now msg m console
  = (if named then (console ++ [formatMessage now "error" "error" msg m])%list else console)
  /\ logger_warn cfg now msg m console
     = (if named then (console ++ [formatMessage now "warn" "warn" msg m])%list else console)
  /\ logger_info cfg now msg m console
     = (if named && negb (String.eqb (LOG_LEVEL cfg) "warn")
        then (console ++ [formatMessage now "log" "info" msg m])%list else console)
  /\ logger_debug cfg node_env now msg m console
     = (if String.eqb (LOG_LEVEL cfg) "debug" && String.eqb node_env "development"
        then (console ++ [formatMessage now "log" "debug" msg m])%list else console).
Proof.
  destruct (shouldLog_cases cfg) as (He & Hw & Hi & Hd). cbv zeta in *.
  unfold logger_error, logger_warn, logger_info, logger_debug.
  rewrite He, Hw, Hi, Hd. repeat split.
Qed.

(** X14: every denial of [requireRole] for an insufficient role and every
    denial of [requireOwnership] for a caller who is not the owner leaves
    one warning on the console, with the caller's id among its metadata,
    under every [LOG_LEVEL] that names no member of [Object.prototype]. *)
Theorem access_denials_are_logged (cfg : Config) (s : State) (u : User) :
  user (req s) = Some u ->
  object_prototype (LOG_LEVEL cfg) = None ->
  (forall requiredRole,
     decision s (requireRole cfg requiredRole s) = InsufficientRole ->
     console (snd (requireRole cfg requiredRole s))
     = (console s
        ++ [formatMessage (clock s) "warn" "warn" "Access denied - insufficient permissions"
              [("userId", Own (_id u)); ("userRole", Own (role u));
               ("requiredRole", Own requiredRole)]])%list)
  /\ (forall resourceField,
        decision s (requireOwnership cfg resourceField s) = NotOwner ->
        console (snd (requireOwnership cfg resourceField s))
        = (console s
           ++ [formatMessage (clock s) "warn" "warn" "Access denied - not resource owner"
                 [("userId", Own (_id u));
                  ("resourceUserId", owner_id (req s) (default "author" resourceField));
                  ("resourceField", Own (JStr (default "author" resourceField)))]])%list).
Proof.
  intros Huser Hnamed.
  assert (Hwarn : shouldLog cfg "warn" = true).
  { destruct (shouldLog_cases cfg) as (_ & Hw & _). cbv zeta in Hw.
    rewrite Hw, Hnamed. reflexivity. }
  split.
  - intros requiredRole. rewrite requireRole_decision, Huser.
    unfold requireRole. run_monad. rewrite Huser.
    destruct (hasRole (role u) requiredRole); cbn [negb]; [discriminate|].
    intros _. unfold log, deny, logger_warn. cbn [snd console]. rewrite Hwarn.
    reflexivity.
  - intros resourceField. rewrite requireOwnership_decision, Huser. cbv zeta.
    unfold requireOwnership, owner_id. run_monad. rewrite Huser.
    destruct (strict_eq_string (role u) "admin"); [discriminate|].
    destruct (truthy_member _); cbn [negb].
    + destruct (toString_member _) as [theirs|e]; [|discriminate].
      destruct (toString (_id u)) as [mine|e]; [|discriminate].
      destruct (String.eqb theirs mine); cbn [negb]; [discriminate|].
      intros _. unfold log, deny, logger_warn. cbn [snd console]. rewrite Hwarn.
      reflexivity.
    + intros _. unfold log, deny, logger_warn. cbn [snd console]. rewrite Hwarn.
      reflexivity.
Qed.

Lemma access_denials_are_logged_witness :
  console (snd (requireRole errorsOnly (JStr "admin")
                  (fresh (ownershipReq (Some (caller "u1" "user")) (JStr "u2")) 7)))
  = [formatMessage 7 "warn" "warn" "Access denied - insufficient permissions"
       [("userId", Own (JStr "u1")); ("userRole", Own (JStr "user"));
        ("requiredRole", Own (JStr "admin"))]].
Proof.
  destruct (access_denials_are_logged errorsOnly
              (fresh (ownershipReq (Some (caller "u1" "user")) (JStr "u2")) 7)
              (caller "u1" "user") eq_refl eq_refl) as [Hrole _].
  apply (Hrole (JStr "admin")). vm_compute. reflexivity.
Defined.

(** ** The full name of a user *)

(** X15: the full name of a user with a username is never blank. Where
    the first or the last name is missing or empty it is the username;
    where both are set it is the first name, one space and the last name,
    and splits at the space back into the two names when neither holds a
    space. *)
Theorem fullName_never_blank (firstName lastName username : jsval) :
  truthy username = true ->
  truthy (fullName firstName lastName username) = true
  /\ (truthy firstName = false \/ truthy lastName = false ->
      fullName firstName lastName username = username)
  /\ (truthy firstName = true -> truthy lastName = true ->
      fullName firstName lastName username
      = JStr (to_string firstName +:+ " " +:+ to_string lastName)
      /\ (occurs " " (to_string firstName) = false ->
          occurs " " (to_string lastName) = false ->
          split " " (to_string firstName +:+ " " +:+ to_string lastName)
          = [to_string firstName; to_string lastName])).
Proof.
  intros Huser. unfold fullName. split; [|split].
  - destruct (truthy firstName && truthy lastName); [|exact Huser].
    simpl. destruct (to_string firstName); reflexivity.
  - intros [-> | ->]; rewrite ?andb_false_r; reflexivity.
  - intros -> ->. split; [reflexivity|].
    intros Hfirst Hlast. rewrite append_char. apply split_pair. auto.
Qed.

Lemma fullName_never_blank_witness :
  fullName (JStr "Ada") (JStr EmptyString) (JStr "ada_l") = JStr "ada_l"
  /\ fullName (JStr "Ada") (JStr "Lovelace") (JStr "ada_l") = JStr "Ada Lovelace"
  /\ split " " "Ada Lovelace" = ["Ada"; "Lovelace"].
Proof.
  destruct (fullName_never_blank (JStr "Ada") (JStr EmptyString) (JStr "ada_l") eq_refl)
    as (_ & Hfallback & _).
  destruct (fullName_never_blank (JStr "Ada") (JStr "Lovelace") (JStr "ada_l") eq_refl)
    as (_ & _ & Hboth).
  destruct (Hboth eq_refl eq_refl) as [Hvalue Hsplit].
  split; [apply Hfallback; right; reflexivity|].
  split; [exact Hvalue | exact (Hsplit eq_refl eq_refl)].
Defined.

(** ** Payloads of any shape and password-reset tokens *)

Lemma json_value_idempotent (v : jsval) : json_value (json_value v) = json_value v.
Proof. destruct v; reflexivity. Qed.

Lemma json_object_lookup (o : gmap string jsval) (k : string) :
  json_object o !! k
  = match o !! k with
    | Some v => if decide (v = JUndefined) then None else Some (json_value v)
    | None => None
    end.
Proof.
  unfold json_object. rewrite lookup_fmap.
  destruct (o !! k) as [v|] eqn:Hk.
  - destruct (decide (v = JUndefined)) as [->|Hv].
    + rewrite map_lookup_filter_None_2; [reflexivity|].
      right. intros v Hv. rewrite Hk in Hv. injection Hv as <-. intros Hne.
      apply Hne. reflexivity.
    + rewrite (map_lookup_filter_Some_2 _ _ k v Hk Hv). reflexivity.
  - rewrite map_lookup_filter_None_2; [reflexivity|]. left. exact Hk.
Qed.

Lemma claim_json_object (o : gmap string jsval) (issued expires : Z) (k : string) :
  claim (Claims.make (json_object o) issued expires) k
  = json_value (default JUndefined (o !! k)).
Proof.
  unfold claim. cbn [Claims.fields]. rewrite json_object_lookup.
  destruct (o !! k) as [v|]; [|reflexivity].
  destruct (decide (v = JUndefined)) as [->|_]; reflexivity.
Qed.

(** A library for payloads of any shape that meets its contract meets the
    contract of [jwt.sign] and [jwt.verify] on identity payloads. *)
Lemma identity_library_lawful (L : JwtObjects) :
  objects_lawful L -> jwt_lawful (identity_library L).
Proof.
  intros Hlaw payload secret expiresIn now t Ht.
  cbn [jwt_sign jwt_verify identity_library]. rewrite Hlaw by assumption.
  rewrite !claim_json_object. reflexivity.
Qed.

Section RefObjectsFacts.
Import RefObjects.

Lemma occurs_value_separator c v :
  In c [","%char; ":"%char; "_"%char; "."%char] ->
  occurs c (RefJwt.write_value v) = false.
Proof.
  intros Hc. simpl in Hc.
  destruct Hc as [<-|[<-|[<-|[<-|[]]]]]; destruct v; simpl; try reflexivity;
    apply occurs_write_string; reflexivity.
Qed.

Lemma occurs_string_separator c s :
  In c [","%char; ":"%char; "_"%char; "."%char] ->
  occurs c (RefJwt.write_string s) = false.
Proof.
  intros Hc. simpl in Hc.
  destruct Hc as [<-|[<-|[<-|[<-|[]]]]]; apply occurs_write_string; reflexivity.
Qed.

Lemma occurs_entry_separator c kv :
  In c [","%char; "_"%char; "."%char] ->
  occurs c (write_entry kv) = false.
Proof.
  intros Hc. unfold write_entry.
  rewrite !occurs_append, occurs_string_separator, occurs_value_separator
    by (simpl in *; tauto).
  simpl in Hc. destruct Hc as [<-|[<-|[<-|[]]]]; reflexivity.
Qed.

Lemma occurs_entries_separator c l :
  In c ["_"%char; "."%char] ->
  occurs c (write_entries l) = false.
Proof.
  intros Hc. induction l as [|kv rest IH]; [reflexivity|].
  cbn [write_entries]. rewrite !occurs_append, IH, occurs_entry_separator
    by (simpl in *; tauto).
  simpl in Hc. destruct Hc as [<-|[<-|[]]]; reflexivity.
Qed.

Lemma read_write_entry kv :
  read_entry (write_entry kv) = Some (kv.1, json_value kv.2).
Proof.
  unfold read_entry, write_entry. rewrite append_char.
  rewrite split_append by (apply occurs_string_separator; simpl; tauto).
  rewrite split_without by (apply occurs_value_separator; simpl; tauto).
  rewrite read_write_string. cbn [mbind option_bind].
  rewrite read_write_value. reflexivity.
Qed.

Lemma read_write_entries l :
  read_pieces (split "," (write_entries l))
  = Some (map (fun kv => (kv.1, json_value kv.2)) l).
Proof.
  induction l as [|kv rest IH]; [reflexivity|].
  cbn [write_entries]. rewrite append_char.
  rewrite split_append by (apply occurs_entry_separator; simpl; tauto).
  destruct (split "," (write_entries rest)) as [|piece pieces] eqn:Hsplit.
  { destruct (split_nonempty _ _ Hsplit). }
  cbn [read_pieces]. rewrite read_write_entry. cbn [mbind option_bind].
  cbn [read_pieces] in IH. rewrite IH. reflexivity.
Qed.

Lemma json_object_normal (o : gmap string jsval) :
  json_value <$> json_object o = json_object o.
Proof.
  unfold json_object. rewrite <- map_fmap_compose.
  apply map_fmap_ext. intros k v _. apply json_value_idempotent.
Qed.

Lemma read_write_object_claims o issued expires :
  read_claims (write_claims o issued expires)
  = Some (Claims.make (json_object o) issued expires).
Proof.
  unfold read_claims, write_claims. rewrite !append_char.
  rewrite split_append by (apply occurs_entries_separator; simpl; tauto).
  rewrite split_append by (apply occurs_write_Z; auto).
  rewrite split_without by (apply occurs_write_Z; auto).
  rewrite read_write_entries. cbn [mbind option_bind].
  rewrite !read_write_Z. cbn [mbind option_bind]. f_equal. f_equal.
  rewrite <- (json_object_normal o) at 2.
  rewrite <- (list_to_map_to_list (json_object o)) at 2.
  rewrite <- list_to_map_fmap. reflexivity.
Qed.

Lemma occurs_object_claims o issued expires :
  occurs "." (write_claims o issued expires) = false.
Proof.
  unfold write_claims.
  rewrite !occurs_append, occurs_entries_separator, !occurs_write_Z
    by (simpl; auto).
  reflexivity.
Qed.

(** The reference library for payloads of any shape meets the contract. *)
Lemma refobjects_lawful : objects_lawful lib.
Proof.
  intros payload secret expiresIn now t Ht.
  cbn [sign_object verify_object lib]. unfold sign, verify, RefJwt.header.
  rewrite !append_char.
  rewrite (split_append "." "jwt") by reflexivity.
  rewrite split_append by apply occurs_object_claims.
  rewrite split_without by (apply occurs_write_string; reflexivity).
  rewrite String.eqb_refl, read_write_object_claims, String.eqb_refl. cbn [negb].
  cbn [Claims.exp].
  destruct (Z.leb_spec (now + expiresIn) t) as [Hle|_]; [lia | reflexivity].
Qed.
End RefObjectsFacts.

Section ResetTokenFacts.
Context {L : JwtObjects} (cfg : Config).

(** What [verifyResetToken] gives, case by case. *)
Lemma verifyResetToken_cases (now : Z) (token : string) :
  (exists payload,
     verifyResetToken cfg now token = Return payload
     /\ verify_object token (JWT_SECRET cfg) now = Return payload
     /\ Claims.fields payload !! "type" = Some (JStr "reset"))
  \/ verifyResetToken cfg now token = Throw (Exn "Error" "Invalid or expired reset token").
Proof.
  unfold verifyResetToken, get.
  destruct (verify_object token (JWT_SECRET cfg) now) as [payload|e]; [|right; reflexivity].
  destruct (Claims.fields payload !! "type") as [v|] eqn:Htype; [|right; reflexivity].
  cbn [member_differs].
  destruct (strict_eq_string v "reset") eqn:Hreset; [|right; reflexivity].
  apply strict_eq_string_true in Hreset as ->. left. exists payload. auto.
Qed.

Lemma verifyResetToken_payload (now : Z) (token : string) (payload : Claims.t) :
  verify_object token (JWT_SECRET cfg) now = Return payload ->
  verifyResetToken cfg now token
  = if decide (claim payload "type" = JStr "reset")
    then Return payload
    else Throw (Exn "Error" "Invalid or expired reset token").
Proof.
  intros Hverify. unfold verifyResetToken, get, claim. rewrite Hverify.
  destruct (Claims.fields payload !! "type") as [v|]; cbn [default member_differs].
  - destruct (strict_eq_string v "reset") eqn:Heq.
    + apply strict_eq_string_true in Heq as ->. rewrite decide_True by reflexivity.
      reflexivity.
    + apply strict_eq_string_false in Heq. rewrite decide_False by assumption.
      reflexivity.
  - rewrite decide_False by discriminate. reflexivity.
Qed.
End ResetTokenFacts.

(** X16: [verifyResetToken] returns a payload only when the library
    verifies the token and the payload's [type] is the string ['reset'];
    every failure, of the library or of the type check, gives the one
    error [Error('Invalid or expired reset token')]: the inner error
    ['Invalid token type'] never reaches the caller. *)
Theorem verifyResetToken_returns_reset_payloads (L : JwtObjects) (cfg : Config)
    (now : Z) (token : string) :
  (exists payload,
     verifyResetToken cfg now token = Return payload
     /\ verify_object token (JWT_SECRET cfg) now = Return payload
     /\ Claims.fields payload !! "type" = Some (JStr "reset"))
  \/ verifyResetToken cfg now token = Throw (Exn "Error" "Invalid or expired reset token").
Proof. apply verifyResetToken_cases. Qed.

(** X17: a reset token read back within the hour of its issue verifies,
    and gives the user id in its JSON form, the type ['reset'] and an
    expiry one hour after the issue (with any library that meets the
    contract). *)
Theorem verifyResetToken_generateResetToken (L : JwtObjects) (cfg : Config)
    (now t : Z) (userId : jsval) :
  objects_lawful L ->
  t < now + 3600 ->
  exists payload,
    verifyResetToken cfg t (generateResetToken cfg now userId) = Return payload
    /\ claim payload "userId" = json_value userId
    /\ claim payload "type" = JStr "reset"
    /\ Claims.iat payload = now
    /\ Claims.exp payload = now + 3600.
Proof.
  intros Hlaw Ht. eexists. split.
  - erewrite verifyResetToken_payload by (apply Hlaw; exact Ht).
    rewrite claim_json_object. apply decide_True. reflexivity.
  - rewrite !claim_json_object. cbn [Claims.iat Claims.exp].
    repeat split.
Qed.

Lemma verifyResetToken_generateResetToken_witness :
  exists payload,
    verifyResetToken (jwt := RefObjects.lib) default_config 1700003599 resetToken
    = Return payload
    /\ claim payload "userId" = JStr "507f1f77bcf86cd799439011"
    /\ Claims.exp payload = 1700003600.
Proof.
  destruct (verifyResetToken_generateResetToken RefObjects.lib default_config
              1700000000 1700003599 (JOid "507f1f77bcf86cd799439011") refobjects_lawful)
    as (payload & Hverify & Hid & _ & _ & Hexp); [reflexivity|].
  exists payload. split; [exact Hverify|]. split; [exact Hid | exact Hexp].
Defined.

(** X18: a session token is no reset token: while it verifies as a session
    token, [verifyResetToken] rejects it, as its payload has no [type]. *)
Theorem session_token_is_no_reset_token (L : JwtObjects) (cfg : Config)
    (now t : Z) (u : User) :
  objects_lawful L ->
  t < now + JWT_EXPIRE cfg ->
  (exists decoded,
     verifyToken (jwt := identity_library L) cfg t
       (generateToken (jwt := identity_library L) cfg now u) = Return decoded)
  /\ verifyResetToken cfg t (generateToken (jwt := identity_library L) cfg now u)
     = Throw (Exn "Error" "Invalid or expired reset token").
Proof.
  intros Hlaw Ht. split.
  - eexists. apply verifyToken_generateToken_claims;
      [apply identity_library_lawful; exact Hlaw | exact Ht].
  - unfold generateToken. cbn [jwt_sign identity_library].
    erewrite verifyResetToken_payload by (apply Hlaw; exact Ht).
    rewrite claim_json_object. apply decide_False. discriminate.
Qed.

Lemma session_token_is_no_reset_token_witness :
  verifyResetToken (jwt := RefObjects.lib) default_config 1700000500 sessionToken
  = Throw (Exn "Error" "Invalid or expired reset token").
Proof.
  apply (session_token_is_no_reset_token RefObjects.lib default_config
           1700000000 1700000500 mockUser refobjects_lawful).
  vm_compute. reflexivity.
Defined.

(** X19: a reset token is taken for a session token: [verifyToken] makes no
    check of the payload's shape, so within its hour a reset token
    verifies, with an identity snapshot whose id, username, email and role
    are all [undefined]; [authenticateToken] then asks the user store for
    the id [undefined], and what the store answers decides alone. *)
Theorem verifyToken_accepts_reset_token (L : JwtObjects) (cfg : Config)
    (findById : jsval -> outcome (option User)) (now : Z) (userId : jsval)
    (s : State) :
  objects_lawful L ->
  clock s < now + 3600 ->
  if_token (extractToken (authorization (req s)))
  = Some (generateResetToken cfg now userId) ->
  verifyToken (jwt := identity_library L) cfg (clock s)
    (generateResetToken cfg now userId)
  = Return {| Decoded.id := JUndefined; Decoded.username := JUndefined;
              Decoded.email := JUndefined; Decoded.role := JUndefined;
              Decoded.iat := now; Decoded.exp := now + 3600 |}
  /\ decision s (authenticateToken (jwt := identity_library L) cfg findById s)
     = match findById JUndefined with
       | Throw _ => Denied (denial 401 "Invalid or expired token")
       | Return None => Denied (denial 401 "User not found")
       | Return (Some u) =>
           if isActive u then Allowed else Denied (denial 401 "Account is deactivated")
       end.
Proof.
  intros Hlaw Ht Htoken.
  assert (Hverify : verifyToken (jwt := identity_library L) cfg (clock s)
                      (generateResetToken cfg now userId)
                    = Return {| Decoded.id := JUndefined; Decoded.username := JUndefined;
                                Decoded.email := JUndefined; Decoded.role := JUndefined;
                                Decoded.iat := now; Decoded.exp := now + 3600 |}).
  { unfold verifyToken, generateResetToken. cbn [jwt_verify identity_library].
    rewrite Hlaw by exact Ht. rewrite !claim_json_object. reflexivity. }
  split; [exact Hverify|].
  rewrite authenticateToken_decision, Htoken, Hverify. reflexivity.
Qed.

Lemma verifyToken_accepts_reset_token_witness :
  decision (fresh (bearer ("Bearer " +:+ resetToken)) 1700000500)
    (authenticateToken (jwt := identity_library RefObjects.lib) default_config
       mockFindById (fresh (bearer ("Bearer " +:+ resetToken)) 1700000500))
  = Denied (denial 401 "User not found").
Proof.
  destruct (verifyToken_accepts_reset_token RefObjects.lib default_config mockFindById
              1700000000 (JOid "507f1f77bcf86cd799439011")
              (fresh (bearer ("Bearer " +:+ resetToken)) 1700000500) refobjects_lawful)
    as [_ Hdecision]; [reflexivity | vm_compute; reflexivity |].
  exact Hdecision.
Defined.

(** ** The controller *)

Section LoginFacts.
Context {jwt : JsonWebToken} (cfg : Config).
Context (findOne : jsval -> outcome (option Account)).
Context (comparePassword : Account -> jsval -> outcome bool).
Context (save : Account -> outcome unit).

(** What a login that answers went through. *)
Lemma login_replied now email0 password console reply console' :
  login cfg findOne comparePassword save now email0 password console
  = (inr reply, console') ->
  exists user,
    findOne email0 = Return (Some user)
    /\ comparePassword user password = Return true
    /\ isActive (doc user) = true
    /\ save (touch now user) = Return tt
    /\ reply_token reply = generateToken cfg now (doc user)
    /\ reply_status reply = 200
    /\ view_id (reply_user reply) = _id (doc user)
    /\ view_username (reply_user reply) = username (doc user)
    /\ view_email (reply_user reply) = email (doc user)
    /\ view_role (reply_user reply) = role (doc user)
    /\ view_lastLogin (reply_user reply) = Some now.
Proof.
  unfold login.
  destruct (findOne email0) as [[user|]|e] eqn:Hfind; try discriminate.
  destruct (comparePassword user password) as [[|]|e] eqn:Hpassword; cbn [negb];
    try discriminate.
  destruct (isActive (doc user)) eqn:Hactive; cbn [negb]; [|discriminate].
  destruct (save (touch now user)) as [[]|e] eqn:Hsave; [|discriminate].
  intros [= <- _]. exists user. cbn.
  repeat split; first [assumption | reflexivity].
Qed.
End LoginFacts.

(** X20: [login] answers, with status 200 and a token, only when the store
    finds an account under the email, the password check accepts the
    password, the account is active and the new login time is saved; the
    token is the one [generateToken] issues for that account at that time,
    and the answer shows that account. *)
Theorem login_issues_token_for_checked_account (jwt : JsonWebToken) (cfg : Config)
    (findOne : jsval -> outcome (option Account))
    (comparePassword : Account -> jsval -> outcome bool)
    (save : Account -> outcome unit)
    (now : Z) (email0 password : jsval) (console console' : list LogLine)
    (reply : LoginReply) :
  login cfg findOne comparePassword save now email0 password console
  = (inr reply, console') ->
  exists user,
    findOne email0 = Return (Some user)
    /\ comparePassword user password = Return true
    /\ isActive (doc user) = true
    /\ save (touch now user) = Return tt
    /\ reply_token reply = generateToken cfg now (doc user)
    /\ reply_status reply = 200
    /\ view_id (reply_user reply) = _id (doc user)
    /\ view_lastLogin (reply_user reply) = Some now.
Proof.
  intros Hlogin.
  destruct (login_replied cfg findOne comparePassword save now email0 password
              console reply console' Hlogin)
    as (user & Hfind & Hpassword & Hactive & Hsave & Htoken & Hstatus & Hid & _ & _ & _ & Hlast).
  exists user. repeat split; assumption.
Qed.

Lemma login_issues_token_for_checked_account_witness :
  exists reply console',
    login (jwt := RefJwt.lib) default_config mockFindOne mockComparePassword mockSave
      1700000000 (JStr "test@example.com") (JStr "Secret1") []
    = (inr reply, console')
    /\ reply_token reply = issuedToken
    /\ view_lastLogin (reply_user reply) = Some 1700000000.
Proof.
  eexists _, _. split; [reflexivity|].
  destruct (login_issues_token_for_checked_account RefJwt.lib default_config
              mockFindOne mockComparePassword mockSave 1700000000
              (JStr "test@example.com") (JStr "Secret1") [] _ _ eq_refl)
    as (user & Hfind & _ & _ & _ & Htoken & _ & _ & Hlast).
  injection Hfind as <-. split; [exact Htoken | exact Hlast].
Defined.

(** X21: a refused login does not tell an unknown email from a wrong
    password: both throw [AppError('Invalid credentials', 401)] and write
    nothing, also for a deactivated account. That an account is
    deactivated is told only to a caller whose password the check
    accepted. *)
Theorem login_refusals (jwt : JsonWebToken) (cfg : Config)
    (findOne : jsval -> outcome (option Account))
    (comparePassword : Account -> jsval -> outcome bool)
    (save : Account -> outcome unit)
    (now : Z) (email0 password : jsval) (console : list LogLine) :
  (findOne email0 = Return None ->
   login cfg findOne comparePassword save now email0 password console
   = (inl (AppError "Invalid credentials" 401), console))
  /\ (forall user,
        findOne email0 = Return (Some user) ->
        comparePassword user password = Return false ->
        login cfg findOne comparePassword save now email0 password console
        = (inl (AppError "Invalid credentials" 401), console))
  /\ (forall user,
        findOne email0 = Return (Some user) ->
        fst (login cfg findOne comparePassword save now email0 password console)
        = inl (AppError "Account is deactivated" 401) ->
        comparePassword user password = Return true
        /\ isActive (doc user) = false).
Proof.
  unfold login. split; [|split].
  - intros ->. reflexivity.
  - intros user -> ->. reflexivity.
  - intros user ->.
    destruct (comparePassword user password) as [[|]|e]; cbn [negb fst];
      try discriminate.
    destruct (isActive (doc user)); cbn [negb fst]; [|auto].
    destruct (save (touch now user)); discriminate.
Qed.

Lemma login_refusals_witness :
  login (jwt := RefJwt.lib) default_config mockFindOne mockComparePassword mockSave
    1700000000 (JStr "nobody@example.com") (JStr "Secret1") []
  = login (jwt := RefJwt.lib) default_config mockFindOne mockComparePassword mockSave
      1700000000 (JStr "former@example.com") (JStr "guess") [].
Proof.
  destruct (login_refusals RefJwt.lib default_config mockFindOne mockComparePassword
              mockSave 1700000000 (JStr "nobody@example.com") (JStr "Secret1") [])
    as (Hunknown & _).
  destruct (login_refusals RefJwt.lib default_config mockFindOne mockComparePassword
              mockSave 1700000000 (JStr "former@example.com") (JStr "guess") [])
    as (_ & Hwrong & _).
  rewrite (Hunknown eq_refl), (Hwrong closedAccount eq_refl eq_refl). reflexivity.
Defined.

(** X22: the token of a login reads back as the account the answer shows:
    verified before its expiry, its snapshot carries the JSON forms of the
    id, username, email and role of [data.user] (with any library that
    meets the contract). *)
Theorem login_token_verifies (jwt : JsonWebToken) (cfg : Config)
    (findOne : jsval -> outcome (option Account))
    (comparePassword : Account -> jsval -> outcome bool)
    (save : Account -> outcome unit)
    (now t : Z) (email0 password : jsval) (console console' : list LogLine)
    (reply : LoginReply) :
  jwt_lawful jwt ->
  login cfg findOne comparePassword save now email0 password console
  = (inr reply, console') ->
  t < now + JWT_EXPIRE cfg ->
  exists decoded,
    verifyToken cfg t (reply_token reply) = Return decoded
    /\ Decoded.id decoded = json_value (view_id (reply_user reply))
    /\ Decoded.username decoded = json_value (view_username (reply_user reply))
    /\ Decoded.email decoded = json_value (view_email (reply_user reply))
    /\ Decoded.role decoded = json_value (view_role (reply_user reply)).
Proof.
  intros Hlaw Hlogin Ht.
  destruct (login_replied cfg findOne comparePassword save now email0 password
              console reply console' Hlogin)
    as (user & _ & _ & _ & _ & -> & _ & -> & -> & -> & -> & _).
  eexists. split.
  - apply verifyToken_generateToken_claims; assumption.
  - repeat split.
Qed.

Lemma login_token_verifies_witness :
  exists reply console' decoded,
    login (jwt := RefJwt.lib) default_config mockFindOne mockComparePassword mockSave
      1700000000 (JStr "test@example.com") (JStr "Secret1") []
    = (inr reply, console')
    /\ verifyToken (jwt := RefJwt.lib) default_config 1700000500 (reply_token reply)
       = Return decoded
    /\ Decoded.email decoded = JStr "test@example.com".
Proof.
  eexists _, _.
  destruct (login_token_verifies RefJwt.lib default_config mockFindOne
              mockComparePassword mockSave 1700000000 1700000500
              (JStr "test@example.com") (JStr "Secret1") [] _ _ refjwt_lawful eq_refl)
    as (decoded & Hverify & _ & _ & Hemail & _); [vm_compute; reflexivity|].
  exists decoded. split; [reflexivity|]. split; [exact Hverify | exact Hemail].
Defined.

(** X23: the update [updateProfile] hands to the user store holds exactly
    the properties of the request body named [firstName], [lastName] or
    [profileImage], with the body's values: no request changes a role, an
    email, a username, a password or the active flag through it. *)
Theorem profileUpdates_only_allowed (body : gmap string jsval) (k : string) :
  profileUpdates body !! k
  = if bool_decide (k ∈ allowedFields) then body !! k else None.
Proof.
  unfold profileUpdates. rewrite <- (list_to_map_to_list body) at 2.
  induction (map_to_list body) as [|[k' v] rest IH]; cbn [foldr list_to_map fst snd].
  - rewrite lookup_empty. destruct (bool_decide _); reflexivity.
  - destruct (decide (k' = k)) as [->|Hne].
    + rewrite lookup_insert_eq.
      destruct (bool_decide (k ∈ allowedFields)) eqn:Hallowed.
      * rewrite lookup_insert_eq. reflexivity.
      * exact IH.
    + rewrite (lookup_insert_ne (list_to_map rest)) by exact Hne.
      destruct (bool_decide (k' ∈ allowedFields)).
      * rewrite lookup_insert_ne by exact Hne. exact IH.
      * exact IH.
Qed.

(** ** Headers, and [optionalAuth] beside [authenticateToken] *)

(** X24: [authenticateToken] answers "Access token is required" exactly to
    the requests whose header is not the text "Bearer", one space and a
    non-empty remainder without a space: an absent header, another scheme,
    a second space and an empty token are all taken for a missing
    token. *)
Theorem authenticateToken_requires_token (jwt : JsonWebToken) (cfg : Config)
    (findById : jsval -> outcome (option User)) (s : State) :
  decision s (authenticateToken cfg findById s)
  = Denied (denial 401 "Access token is required")
  <-> (forall token,
         authorization (req s) = Some ("Bearer " +:+ token) ->
         occurs " " token = true \/ token = EmptyString).
Proof.
  rewrite authenticateToken_decision. split.
  - destruct (if_token _) as [found|] eqn:Htoken.
    + destruct (verifyToken cfg (clock s) found) as [decoded|e]; [|discriminate].
      destruct (findById (Decoded.id decoded)) as [[u|]|e]; try discriminate.
      destruct (isActive u); discriminate.
    + intros _ token Hheader.
      destruct (occurs " " token) eqn:Hspace; [left; reflexivity|].
      destruct (String.eqb token EmptyString) eqn:Hempty.
      * right. apply String.eqb_eq. exact Hempty.
      * apply String.eqb_neq in Hempty.
        assert (if_token (extractToken (authorization (req s))) = Some token) as Hsome
          by (apply if_token_extractToken; auto).
        congruence.
  - intros Hheader.
    destruct (if_token _) as [found|] eqn:Htoken; [|reflexivity].
    apply if_token_extractToken in Htoken as (Hform & Hspace & Hempty).
    destruct (Hheader found Hform) as [Hocc | ->]; [congruence | contradiction].
Qed.

(** X25: [optionalAuth] is [authenticateToken] with every denial replaced
    by [next()]: where [authenticateToken] lets the request pass, both
    leave the same state, with the same user on the request; where it
    denies, [optionalAuth] only calls [next]. *)
Theorem optionalAuth_is_lenient (jwt : JsonWebToken) (cfg : Config)
    (findById : jsval -> outcome (option User)) (s : State) :
  (decision s (authenticateToken cfg findById s) = Allowed ->
   optionalAuth cfg findById s = authenticateToken cfg findById s)
  /\ (decision s (authenticateToken cfg findById s) <> Allowed ->
      optionalAuth cfg findById s = (Return tt, passed s)).
Proof.
  rewrite authenticateToken_decision, optionalAuth_run.
  unfold authenticateToken. run_monad.
  destruct (if_token _) as [token|].
  - destruct (verifyToken cfg (clock s) token) as [decoded|e].
    + destruct (findById (Decoded.id decoded)) as [[u|]|e].
      * destruct (isActive u); cbn [negb]; split; intros H;
          first [reflexivity | discriminate H | destruct H; reflexivity
                | destruct s as [[]]; reflexivity].
      * split; [discriminate | intros _; destruct s as [[]]; reflexivity].
      * split; [discriminate | intros _; destruct s as [[]]; reflexivity].
    + split; [discriminate | intros _; destruct s as [[]]; reflexivity].
  - split; [discriminate | intros _; destruct s as [[]]; reflexivity].
Qed.

Lemma optionalAuth_is_lenient_witness :
  optionalAuth (jwt := RefJwt.lib) default_config mockFindById presented
  = authenticateToken (jwt := RefJwt.lib) default_config mockFindById presented
  /\ optionalAuth (jwt := RefJwt.lib) default_config mockFindById
       (fresh (bearer "Bearer invalid.jwt.token") 1700000000)
     = (Return tt, passed (fresh (bearer "Bearer invalid.jwt.token") 1700000000)).
Proof.
  split.
  - apply (optionalAuth_is_lenient RefJwt.lib default_config mockFindById presented).
    vm_compute. reflexivity.
  - apply (optionalAuth_is_lenient RefJwt.lib default_config mockFindById
             (fresh (bearer "Bearer invalid.jwt.token") 1700000000)).
    vm_compute. discriminate.
Defined.
